(** * quantum_circuit.gates: bit-index algebra and gate combinators

    A shallow embedding of [src/quantum_circuit/gates.py].

    Conventions of the embedding:
    - a Python [int] holding a basis state is a [Z]; Python's [&] on ints of
      either sign is two's complement on an unbounded word, which is
      [Z.land];
    - qubit positions, qubit counts and list indices are [nat]: every one of
      them is the right operand of a [1 << i] or an index produced by
      [range], and Python raises [ValueError] on a negative shift count
      before anything else happens;
    - a raised exception is the [Raise] branch of [result];
    - a numpy vector is a [list] of amplitudes, a numpy matrix the list of
      its rows (row-major, as [np.array] reads a nested list);
    - amplitudes are kept abstract behind the class [Amplitude]; the code
      under study only copies, adds and multiplies them. *)

From Stdlib Require Import ZArith List Bool Lia QArith Qabs.
From stdpp Require Import base list gmap.

Local Open Scope Z_scope.

(** ** Exceptions *)

Inductive pyerr : Type :=
  | AssertionError
  | IndexError
  | TypeError
  | AttributeError
  | ValueError.

Inductive result (T : Type) : Type :=
  | Ok (x : T)
  | Raise (e : pyerr).

Arguments Ok {T} x.
Arguments Raise {T} e.

Definition rbind {T U : Type} (r : result T) (k : T -> result U) : result U :=
  match r with
  | Ok x => k x
  | Raise e => Raise e
  end.

Notation "x <~ r ;; k" := (rbind r (fun x => k))
  (at level 100, r at next level, right associativity).

(** A list comprehension whose body may raise: elements are evaluated left to
    right and the first exception ends the evaluation. *)
Fixpoint rmap {T U : Type} (f : T -> result U) (l : list T) : result (list U) :=
  match l with
  | [] => Ok []
  | x :: l' => y <~ f x ;; ys <~ rmap f l' ;; Ok (y :: ys)
  end.

Definition is_ok {T : Type} (r : result T) : bool :=
  match r with Ok _ => true | Raise _ => false end.

(** ** Integer helpers *)

(** Python's [sum] over ints: a left fold starting at 0. *)
Definition py_sum (l : list Z) : Z := fold_left Z.add l 0.

(** [1 << i]. *)
Definition shl1 (i : nat) : Z := Z.shiftl 1 (Z.of_nat i).

(** [range(n)]. *)
Definition range (n : nat) : list nat := seq 0 n.

(** [1 << n] used as a length. *)
Definition pow2 (n : nat) : nat := Nat.pow 2 n.

(** Truthiness of an int: [x != 0]. *)
Definition nonzero (x : Z) : bool := negb (x =? 0).

(** ** Bit-index algebra (module-level helpers of gates.py) *)

(** [def _is_set(i, k): return (1 << i) & k != 0] *)
Definition _is_set (i : nat) (k : Z) : bool :=
  nonzero (Z.land (shl1 i) k).

(** [def _clear_bits(basis_state, apply_qubits):
       return basis_state - sum(1 << i for i in apply_qubits) & basis_state]
    Binary [-] binds tighter than [&] in Python, so the expression is
    [(basis_state - sum(...)) & basis_state]. *)
Definition _clear_bits (basis_state : Z) (apply_qubits : list nat) : Z :=
  Z.land (basis_state - py_sum (map shl1 apply_qubits)) basis_state.

(** [def _extract_sub_basis_state(basis_state, qubits):
       return sum(1 << i for i in range(len(qubits))
                  if basis_state & (1 << qubits[i]) != 0)] *)
Definition _extract_sub_basis_state (basis_state : Z) (qubits : list nat) : Z :=
  py_sum (map shl1
    (List.filter
       (fun i => nonzero (Z.land basis_state (shl1 (nth i qubits 0%nat))))
       (range (length qubits)))).

(** The mask the specification describes for [clear_bits]: a 1 exactly at
    each listed position. *)
Definition qubit_mask (qubits : list nat) : Z :=
  fold_right (fun q m => Z.lor (shl1 q) m) 0 qubits.

(** What the specification asks of [clear_bits]: [basis_state AND NOT mask]. *)
Definition clear_bits_spec (basis_state : Z) (qubits : list nat) : Z :=
  Z.land basis_state (Z.lnot (qubit_mask qubits)).

(** ** Sums of selected powers of two

    Both [_extract_sub_basis_state] and the [set_apply] sum of
    [_insert_sub_bit_superpos] add up [1 << i] over the indices of a range
    that pass a test. Each index contributes its own bit, so the sum never
    carries. *)

Definition bits_sum (p : nat -> bool) (n : nat) : Z :=
  py_sum (map shl1 (List.filter p (range n))).

(** ** Amplitudes *)

(** The numeric type of an amplitude ([np.complex64] in the source) with the
    four things the code does with it: the 0 of [np.zeros], the 1 that
    starts the product in [mul], [+] and [*]. *)
Class Amplitude (A : Type) : Type := {
  azero : A;
  aone : A;
  aadd : A -> A -> A;
  amul : A -> A -> A
}.

(** Integer amplitudes: small integers and their sums and products are
    represented exactly by [np.complex64]. *)
#[export] Instance Z_amplitude : Amplitude Z :=
  {| azero := 0; aone := 1; aadd := Z.add; amul := Z.mul |}.

(** Rational amplitudes. *)
#[export] Instance Q_amplitude : Amplitude Q :=
  {| azero := 0%Q; aone := 1%Q; aadd := Qplus; amul := Qmult |}.

Section Gates.

Context {A : Type} `{Amplitude A}.

(** ** numpy vectors and matrices *)

(** [np.zeros(n, np.complex64)] *)
Definition np_zeros (n : nat) : list A := replicate n azero.

(** numpy's bounds check of an integer index into an axis of length [size]:
    an index in [[-size, 0)] counts from the end, anything outside
    [[-size, size)] raises [IndexError]. *)
Definition np_index (size : nat) (i : Z) : result nat :=
  if (0 <=? i) && (i <? Z.of_nat size) then Ok (Z.to_nat i)
  else if (- Z.of_nat size <=? i) && (i <? 0) then
    Ok (Z.to_nat (i + Z.of_nat size))
  else Raise IndexError.

(** [arr[i] = v] on a vector. *)
Definition np_setitem (arr : list A) (i : Z) (v : A) : result (list A) :=
  j <~ np_index (length arr) i ;; Ok (<[j := v]> arr).

(** [seq[k]] for an index [k] produced by [range]. *)
Definition seq_getitem {T : Type} (l : list T) (k : nat) : result T :=
  match l !! k with
  | Some v => Ok v
  | None => Raise IndexError
  end.

(** Number of columns of a matrix given by its rows. *)
Definition ncols (m : list (list A)) : nat :=
  match m with
  | [] => 0%nat
  | r :: _ => length r
  end.

(** An [n] by [n] matrix. *)
Definition square (n : nat) (m : list (list A)) : Prop :=
  length m = n /\ Forall (fun r => length r = n) m.

(** [m[:, j]] for an index [j] already checked against the column count. *)
Definition column (m : list (list A)) (j : nat) : list A :=
  map (fun r => nth j r azero) m.

(** [m[:, j] = v]: the vector must have one entry per row, or a single entry
    that numpy broadcasts over the column; any other length raises
    [ValueError]. *)
Definition set_column (m : list (list A)) (j : nat) (v : list A)
  : result (list (list A)) :=
  if (length v =? length m)%nat then
    Ok (zip_with (fun r x => <[j := x]> r) m v)
  else
    match v with
    | [x] => Ok (map (fun r => <[j := x]> r) m)
    | _ => Raise ValueError
    end.

(** Inner product of a row with a vector of the same length. *)
Definition row_dot (r v : list A) : A :=
  fold_left aadd (zip_with amul r v) azero.

(** [np.dot(m, v)] for a matrix and a vector: the column count of [m] must
    be the length of [v]. *)
Definition np_dot_mv (m : list (list A)) (v : list A) : result (list A) :=
  if (ncols m =? length v)%nat then Ok (map (fun r => row_dot r v) m)
  else Raise ValueError.

(** [np.dot(m1, m2)] for two matrices: the column count of [m1] must be the
    row count of [m2]. *)
Definition np_dot_mm (m1 m2 : list (list A)) : result (list (list A)) :=
  if (ncols m1 =? length m2)%nat then
    Ok (map (fun r => map (fun j => row_dot r (column m2 j)) (range (ncols m2)))
            m1)
  else Raise ValueError.

(** ** State *)

(** Modelled from the spec: class [State] of quantum_circuit/state.py, which
    is not under src/. The spec (section 3) gives it an ordered sequence
    [amplitudes], construction from a raw sequence, [from_basis_state],
    addition and indexing by integer; gates.py also takes its [len] and
    multiplies it by an amplitude on the left, which section 4.2 reads as
    the terms [state[k] * eval_bs(k)] of a superposition. *)
Record State : Type := mkState { amplitudes : list A }.

(** Modelled from the spec: [State.from_basis_state(basis_size, k)] has one
    unit amplitude at index [k] and zero elsewhere. The spec defines it for
    [k] in [[0, basis_size)] only; the model raises [IndexError] elsewhere. *)
Definition from_basis_state (basis_size : nat) (k : Z) : result State :=
  if (0 <=? k) && (k <? Z.of_nat basis_size) then
    Ok (mkState (<[Z.to_nat k := aone]> (np_zeros basis_size)))
  else Raise IndexError.

(** Modelled from the spec: [state[k]]. *)
Definition state_getitem (s : State) (k : nat) : result A :=
  seq_getitem (amplitudes s) k.

(** Modelled from the spec: [a * state], every amplitude scaled by [a]. *)
Definition state_scale (a : A) (s : State) : State :=
  mkState (map (amul a) (amplitudes s)).

(** Modelled from the spec: [s + t], amplitude by amplitude; the lengths
    must agree. *)
Definition state_add (s t : State) : result State :=
  if (length (amplitudes s) =? length (amplitudes t))%nat then
    Ok (mkState (zip_with aadd (amplitudes s) (amplitudes t)))
  else Raise ValueError.

(** The unit vector of length [n] at index [k]. *)
Definition unit_vector (n k : nat) : list A := <[k := aone]> (np_zeros n).

(** ** Scattering a local superposition *)

(** The inner sum of [_insert_sub_bit_superpos]:
    [sum(1 << apply_qubits[i] for i in range(len(apply_qubits))
         if (i + 1) & k)] *)
Definition set_apply (apply_qubits : list nat) (k : nat) : Z :=
  py_sum (map (fun i => shl1 (nth i apply_qubits 0%nat))
    (List.filter
       (fun i => nonzero (Z.land (Z.of_nat (i + 1)) (Z.of_nat k)))
       (range (length apply_qubits)))).

(** The loop [for k in range(len(insert_state)):
               out_state_raw[set_apply + empty_apply] = insert_state[k]]. *)
Fixpoint insert_loop (out_state_raw : list A) (empty_apply : Z)
    (insert_state : list A) (apply_qubits : list nat) (ks : list nat)
  : result (list A) :=
  match ks with
  | [] => Ok out_state_raw
  | k :: ks' =>
      v <~ seq_getitem insert_state k ;;
      out' <~ np_setitem out_state_raw
                (set_apply apply_qubits k + empty_apply) v ;;
      insert_loop out' empty_apply insert_state apply_qubits ks'
  end.

(** [def _insert_sub_bit_superpos(basis_size, state, insert_state,
                                  apply_qubits)].
    [insert_state] is a Python list in [multi_gate] and a [State] in
    [controlled_u]; only its [len] and its items are used, so it is passed
    as the sequence of its amplitudes. *)
Definition _insert_sub_bit_superpos (basis_size : nat) (state : Z)
    (insert_state : list A) (apply_qubits : list nat) : result State :=
  let out_state_raw := np_zeros basis_size in
  let empty_apply := _clear_bits state apply_qubits in
  raw <~ insert_loop out_state_raw empty_apply insert_state apply_qubits
           (range (length insert_state)) ;;
  Ok (mkState raw).

(** [def mul(iterator)]: the product of the items, starting from 1. *)
Definition mul (iterator : list A) : A := fold_left amul iterator aone.

(** ** Gates *)

(** The two concrete subclasses of the abstract class [Gate]. A
    [FunctionalGate] stores [_eval_bs] as it is given, a function that may
    raise; a [MatrixGate] stores the matrix. *)
Inductive Gate : Type :=
  | FunctionalGate (qubit_count : nat) (_eval_bs : Z -> result State)
  | MatrixGate (qubit_count : nat) (matrix : list (list A)).

Definition qubit_count (g : Gate) : nat :=
  match g with
  | FunctionalGate qc _ => qc
  | MatrixGate qc _ => qc
  end.

(** [self._basis_size = 1 << qubit_count] *)
Definition basis_size (g : Gate) : nat := pow2 (qubit_count g).

(** [FunctionalGate.eval_bs]: [return self._eval_bs(basis_state)].
    [MatrixGate.eval_bs]: [return State(np.copy(self.matrix[:, basis_state]))]
    (with [need_copy=False] the same values without the copy). *)
Definition eval_bs (g : Gate) (basis_state : Z) : result State :=
  match g with
  | FunctionalGate _ _eval_bs => _eval_bs basis_state
  | MatrixGate _ matrix =>
      j <~ np_index (ncols matrix) basis_state ;;
      Ok (mkState (column matrix j))
  end.

(** What a caller may pass to [__call__]: Python does not check that it is a
    [State], and [multi_gate] passes an [int]. *)
Inductive pyarg : Type :=
  | PyInt (z : Z)
  | PyState (s : State).

(** [state[k]]: an [int] is not subscriptable. *)
Definition arg_getitem (state : pyarg) (k : nat) : result A :=
  match state with
  | PyInt _ => Raise TypeError
  | PyState s => state_getitem s k
  end.

(** [state.amplitudes]: an [int] has no such attribute. *)
Definition arg_amplitudes (state : pyarg) : result (list A) :=
  match state with
  | PyInt _ => Raise AttributeError
  | PyState s => Ok (amplitudes s)
  end.

(** [sum(state[k] * self.eval_bs(k) for k in range(self.basis_size))]: the
    accumulator starts as the int 0 ([None] here), to which the first term
    is added unchanged. For each [k], [state[k]] is evaluated before
    [self.eval_bs(k)]. *)
Fixpoint superpose (_eval_bs : Z -> result State) (state : pyarg)
    (ks : list nat) (acc : option State) : result (option State) :=
  match ks with
  | [] => Ok acc
  | k :: ks' =>
      a <~ arg_getitem state k ;;
      s <~ _eval_bs (Z.of_nat k) ;;
      acc' <~ match acc with
              | None => Ok (state_scale a s)
              | Some t => state_add t (state_scale a s)
              end ;;
      superpose _eval_bs state ks' (Some acc')
  end.

(** [FunctionalGate.__call__] and [MatrixGate.__call__]. The matrix variant
    returns the bare vector [np.dot(self.matrix, state.amplitudes)]; it is
    wrapped in a [State] here so that both variants can be compared
    amplitude by amplitude. [range(self.basis_size)] is never empty, so the
    sum of the functional variant never stays at its int start value. *)
Definition gate_call (self : Gate) (state : pyarg) : result State :=
  match self with
  | FunctionalGate qc _eval_bs =>
      r <~ superpose _eval_bs state (range (pow2 qc)) None ;;
      match r with
      | Some s => Ok s
      | None => Raise TypeError
      end
  | MatrixGate _ matrix =>
      v <~ arg_amplitudes state ;;
      w <~ np_dot_mv matrix v ;;
      Ok (mkState w)
  end.

(** [gate(...)] on an int raises: the functional variant subscripts it, the
    matrix variant reads its [amplitudes]. *)
Definition call_on_int_error (gate : Gate) : pyerr :=
  match gate with
  | FunctionalGate _ _ => TypeError
  | MatrixGate _ _ => AttributeError
  end.

(** [FunctionalGate.__mul__]:
    [return FunctionalGate(self.qubit_count,
                           lambda bs: self(gate2.eval_bs(bs)))] *)
Definition FunctionalGate_mul (self gate2 : Gate) : Gate :=
  FunctionalGate (qubit_count self)
    (fun bs => s <~ eval_bs gate2 bs ;; gate_call self (PyState s)).

(** [MatrixGate.__mul__]:
    [if not isinstance(gate2, MatrixGate): return gate2 * self
     return MatrixGate(self.qubit_count, np.dot(self.matrix, gate2.matrix))] *)
Definition MatrixGate_mul (self_qubit_count : nat)
    (self_matrix : list (list A)) (gate2 : Gate) : result Gate :=
  match gate2 with
  | FunctionalGate _ _ =>
      Ok (FunctionalGate_mul gate2 (MatrixGate self_qubit_count self_matrix))
  | MatrixGate _ matrix2 =>
      m <~ np_dot_mm self_matrix matrix2 ;;
      Ok (MatrixGate self_qubit_count m)
  end.

(** [g1 * g2], dispatched on the class of [g1]. *)
Definition gate_mul (g1 g2 : Gate) : result Gate :=
  match g1 with
  | FunctionalGate _ _ => Ok (FunctionalGate_mul g1 g2)
  | MatrixGate qc matrix => MatrixGate_mul qc matrix g2
  end.

(** The class a classmethod is called on. *)
Inductive gate_class : Type :=
  | GateClass
  | FunctionalGateClass
  | MatrixGateClass.

(** The loop of [MatrixGate.from_eval_bs]:
    [for bs in range(basis_size): mat[:, bs] = _eval_bs(bs).amplitudes] *)
Fixpoint fill_columns (mat : list (list A)) (_eval_bs : Z -> result State)
    (bss : list nat) : result (list (list A)) :=
  match bss with
  | [] => Ok mat
  | bs :: bss' =>
      s <~ _eval_bs (Z.of_nat bs) ;;
      mat' <~ set_column mat bs (amplitudes s) ;;
      fill_columns mat' _eval_bs bss'
  end.

(** [cls.from_eval_bs(qubit_count, _eval_bs)]: [Gate] defers to
    [FunctionalGate], which stores the function; [MatrixGate] evaluates it
    at every basis state. *)
Definition from_eval_bs (cls : gate_class) (qubit_count : nat)
    (_eval_bs : Z -> result State) : result Gate :=
  match cls with
  | GateClass | FunctionalGateClass => Ok (FunctionalGate qubit_count _eval_bs)
  | MatrixGateClass =>
      let basis_size := pow2 qubit_count in
      let mat := replicate basis_size (np_zeros basis_size) in
      mat' <~ fill_columns mat _eval_bs (range basis_size) ;;
      Ok (MatrixGate qubit_count mat')
  end.

(** The closure [_eval_bs] of [Gate.multi_gate]. [gate(...)] is
    [gate.__call__] on the int returned by [_extract_sub_basis_state]; the
    bool returned by [_is_set] indexes as 0 or 1. *)
Definition multi_gate_eval_bs (qubit_count : nat) (gate : Gate)
    (apply_qubits : list nat) (basis_state : Z) : result State :=
  out_states <~ rmap
    (fun qi => gate_call gate
                 (PyInt (_extract_sub_basis_state basis_state [qi])))
    apply_qubits ;;
  out_state <~ rmap
    (fun k =>
       factors <~ rmap
         (fun i => s <~ seq_getitem out_states i ;;
                   state_getitem s (if _is_set i (Z.of_nat k) then 1 else 0)%nat)
         (range (length out_states)) ;;
       Ok (mul factors))
    (range (pow2 (length apply_qubits))) ;;
  _insert_sub_bit_superpos (pow2 qubit_count) basis_state out_state
    apply_qubits.

(** [Gate.multi_gate] *)
Definition multi_gate (cls : gate_class) (qubit_count : nat) (gate : Gate)
    (apply_qubits : list nat) : result Gate :=
  from_eval_bs cls qubit_count
    (multi_gate_eval_bs qubit_count gate apply_qubits).

(** [control_mask = sum(1 << i for i in control_qubits)] *)
Definition control_mask_of (control_qubits : list nat) : Z :=
  py_sum (map shl1 control_qubits).

(** The closure [_eval_bs] of [Gate.controlled_u]. *)
Definition controlled_u_eval_bs (basis_size : nat) (control_mask : Z)
    (u : Gate) (apply_qubits : list nat) (basis_state : Z) : result State :=
  if negb (Z.land basis_state control_mask =? control_mask) then
    from_basis_state basis_size basis_state
  else
    let u_input_bs := _extract_sub_basis_state basis_state apply_qubits in
    u_out_state <~ eval_bs u u_input_bs ;;
    _insert_sub_bit_superpos basis_size basis_state (amplitudes u_out_state)
      apply_qubits.

(** The three assertions that open [Gate.controlled_u]. *)
Definition controlled_u_checks (apply_qubits control_qubits : list nat)
  : result unit :=
  let control_qubits_s : gset nat := list_to_set control_qubits in
  let apply_qubits_s : gset nat := list_to_set apply_qubits in
  if negb (size control_qubits_s =? length control_qubits)%nat then
    Raise AssertionError
  else if negb (size apply_qubits_s =? length apply_qubits)%nat then
    Raise AssertionError
  else if negb (bool_decide (control_qubits_s ## apply_qubits_s)) then
    Raise AssertionError
  else Ok tt.

(** [Gate.controlled_u] *)
Definition controlled_u (cls : gate_class) (qubit_count : nat) (u : Gate)
    (apply_qubits control_qubits : list nat) : result Gate :=
  _ <~ controlled_u_checks apply_qubits control_qubits ;;
  let basis_size := pow2 qubit_count in
  let control_mask := control_mask_of control_qubits in
  from_eval_bs cls qubit_count
    (controlled_u_eval_bs basis_size control_mask u apply_qubits).

End Gates.

Arguments State A : clear implicits.
Arguments Gate A : clear implicits.
Arguments pyarg A : clear implicits.

(** Preconditions of [controlled_u]: no duplicate in either list and no
    qubit in both. *)
Definition valid_qubit_lists (apply_qubits control_qubits : list nat) : Prop :=
  NoDup control_qubits /\ NoDup apply_qubits /\
  (forall q, q ∈ control_qubits -> q ∉ apply_qubits).

(** ** Concrete gates used in the evaluations *)

(** [MatrixGate(1, [[1, 1], [0, 1]])] *)
Definition mul_example_g1 : Gate Z := MatrixGate 1 [[1; 1]; [0; 1]].

(** [FunctionalGate(1, f)] with [f] returning the columns of
    [[1, 0], [1, 1]]. *)
Definition mul_example_g2 : Gate Z :=
  FunctionalGate 1 (eval_bs (MatrixGate 1 [[1; 0]; [1; 1]])).

(** [FunctionalGate(1, lambda bs: State([1, 0]))] *)
Definition constant_gate : Gate Z :=
  FunctionalGate 1 (fun _ => Ok (mkState [1; 0])).

(** A gate whose [eval_bs] is defined nowhere. *)
Definition raising_gate : Gate Z :=
  FunctionalGate 1 (fun _ => Raise ValueError).

(** The Hadamard matrix without its factor [1/sqrt(2)]. *)
Definition hadamard_unnormalised : Gate Z := MatrixGate 1 [[1; 1]; [1; -1]].

(** The [np.complex64] value nearest to [1/sqrt(2)]. *)
Definition s2 : Q := 11863283 # 16777216.

(** The single-qubit Hadamard gate, [[[1, 1], [1, -1]] / sqrt(2)]. *)
Definition hadamard : Gate Q :=
  MatrixGate 1 [[s2; s2]; [s2; Qopp s2]].

(** The matrix in the docstring of [controlled_u]. *)
Definition worked_example_matrix : list (list Q) :=
  let o := 0%Q in let i := 1%Q in let s := s2 in let m := Qopp s2 in
  [[i; o; o; o; o; o; o; o];
   [o; s; o; s; o; o; o; o];
   [o; o; i; o; o; o; o; o];
   [o; s; o; m; o; o; o; o];
   [o; o; o; o; i; o; o; o];
   [o; o; o; o; o; s; o; s];
   [o; o; o; o; o; o; i; o];
   [o; o; o; o; o; s; o; m]].

(** The matrix [MatrixGate.controlled_u(3, hadamard, [1], [0])] stores. *)
Definition controlled_u_example_matrix : list (list Q) :=
  let o := 0%Q in let i := 1%Q in let s := s2 in let m := Qopp s2 in
  [[i; o; o; o; o; o; o; o];
   [o; s; o; s; o; s; o; o];
   [o; o; i; o; o; o; o; o];
   [o; s; o; m; o; s; o; o];
   [o; o; o; o; i; o; o; o];
   [o; o; o; o; o; o; o; s];
   [o; o; o; o; o; o; i; o];
   [o; o; o; o; o; o; o; m]].

(** Entry by entry comparison of two matrices of the same shape, up to
    [tol] in absolute value. *)
Definition within_tolerance (tol : Q) (m1 m2 : list (list Q)) : bool :=
  (length m1 =? length m2)%nat &&
  forallb
    (fun rr => (length (fst rr) =? length (snd rr))%nat &&
               forallb (fun xy => Qle_bool (Qabs (fst xy - snd xy)) tol)
                 (combine (fst rr) (snd rr)))
    (combine m1 m2).

(** ** Auxiliary definitions for the further properties *)

(** [isinstance(g, MatrixGate)] *)
Definition is_matrix_gate {A : Type} (g : Gate A) : bool :=
  match g with
  | FunctionalGate _ _ => false
  | MatrixGate _ _ => true
  end.

(** The laws of 0 and 1 that the amplitudes of a run obey (finite
    [np.complex64] values do). *)
Definition amplitude_laws (A : Type) `{Amplitude A} : Prop :=
  (forall x : A, amul aone x = x) /\
  (forall x : A, amul x aone = x) /\
  (forall x : A, amul azero x = azero) /\
  (forall x : A, amul x azero = azero) /\
  (forall x : A, aadd azero x = x) /\
  (forall x : A, aadd x azero = x).

(** The scatter that the comments inside [_insert_sub_bit_superpos]
    describe ("for nth bit, add 2**n every 2**n-th entry"): qubit
    [apply_qubits[i]] is set when bit [i] of [k] is. *)
Definition set_apply_by_bit (apply_qubits : list nat) (k : nat) : Z :=
  py_sum (map (fun i => shl1 (nth i apply_qubits 0%nat))
    (List.filter (fun i => _is_set i (Z.of_nat k))
       (range (length apply_qubits)))).

(** * Properties *)

(** ** Facts about the integer helpers *)

Lemma py_sum_from (l : list Z) (a : Z) : fold_left Z.add l a = a + py_sum l.
Proof.
  unfold py_sum. revert a.
  induction l as [|x l IH]; intros a; simpl.
  - lia.
  - rewrite (IH (a + x)), (IH (0 + x)). lia.
Qed.

Lemma py_sum_nil : py_sum [] = 0.
Proof. reflexivity. Qed.

Lemma py_sum_cons (x : Z) (l : list Z) : py_sum (x :: l) = x + py_sum l.
Proof. unfold py_sum at 1. simpl. apply py_sum_from. Qed.

Lemma py_sum_snoc (l : list Z) (x : Z) : py_sum (l ++ [x]) = py_sum l + x.
Proof.
  unfold py_sum at 1. rewrite fold_left_app. simpl. reflexivity.
Qed.

Lemma shl1_pow (i : nat) : shl1 i = 2 ^ Z.of_nat i.
Proof. unfold shl1. rewrite Z.shiftl_1_l. reflexivity. Qed.

Lemma shl1_testbit (i : nat) (j : Z) :
  Z.testbit (shl1 i) j = (Z.of_nat i =? j).
Proof. rewrite shl1_pow. apply Z.pow2_bits_eqb. lia. Qed.

Lemma nonzero_land_shl1 (x : Z) (q : nat) :
  nonzero (Z.land x (shl1 q)) = Z.testbit x (Z.of_nat q).
Proof.
  unfold nonzero.
  destruct (Z.testbit x (Z.of_nat q)) eqn:Hb.
  - apply negb_true_iff, Z.eqb_neq. intros H0.
    assert (Hc : Z.testbit (Z.land x (shl1 q)) (Z.of_nat q) = false)
      by (rewrite H0; apply Z.bits_0).
    rewrite Z.land_spec, Hb, shl1_testbit, Z.eqb_refl in Hc. discriminate.
  - apply negb_false_iff, Z.eqb_eq, Z.bits_inj'. intros n Hn.
    rewrite Z.land_spec, shl1_testbit, Z.bits_0.
    destruct (Z.eqb_spec (Z.of_nat q) n) as [Heq|_].
    + subst n. rewrite Hb. reflexivity.
    + apply andb_false_r.
Qed.

(** *** Sums of selected powers of two *)

Lemma bits_sum_S (p : nat -> bool) (n : nat) :
  bits_sum p (S n) = bits_sum p n + (if p n then shl1 n else 0).
Proof.
  unfold bits_sum, range. rewrite seq_S, List.filter_app, map_app. simpl.
  destruct (p n); simpl.
  - apply py_sum_snoc.
  - rewrite app_nil_r. lia.
Qed.

Lemma bits_sum_bound (p : nat -> bool) (n : nat) :
  0 <= bits_sum p n < 2 ^ Z.of_nat n.
Proof.
  induction n as [|n IH].
  - unfold bits_sum. simpl. rewrite py_sum_nil. lia.
  - rewrite bits_sum_S, Nat2Z.inj_succ, Z.pow_succ_r by lia.
    destruct (p n); rewrite ?shl1_pow; lia.
Qed.

Lemma small_testbit_false (x : Z) (n : nat) (j : Z) :
  0 <= x < 2 ^ Z.of_nat n -> Z.of_nat n <= j -> Z.testbit x j = false.
Proof.
  intros Hx Hj.
  destruct (Z.eq_dec x 0) as [->|Hne]; [apply Z.bits_0|].
  apply Z.bits_above_log2; [lia|].
  apply Z.lt_le_trans with (Z.of_nat n); [|exact Hj].
  apply Z.log2_lt_pow2; lia.
Qed.

Lemma add_shl1_testbit (x : Z) (n : nat) (j : Z) :
  0 <= x < 2 ^ Z.of_nat n ->
  Z.testbit (x + shl1 n) j = Z.testbit x j || (Z.of_nat n =? j).
Proof.
  intros Hx.
  assert (Hland : Z.land x (shl1 n) = 0).
  { pose proof (nonzero_land_shl1 x n) as H.
    rewrite (small_testbit_false x n (Z.of_nat n)) in H by lia.
    unfold nonzero in H. apply negb_false_iff, Z.eqb_eq in H. exact H. }
  rewrite (Z.add_nocarry_lxor _ _ Hland), Z.lxor_spec, shl1_testbit.
  destruct (Z.eqb_spec (Z.of_nat n) j) as [Heq|Hne].
  - subst j. rewrite (small_testbit_false x n) by lia. reflexivity.
  - rewrite xorb_false_r, orb_false_r. reflexivity.
Qed.

Lemma bits_sum_testbit (p : nat -> bool) (n j : nat) :
  Z.testbit (bits_sum p n) (Z.of_nat j) = (j <? n)%nat && p j.
Proof.
  induction n as [|n IH].
  - unfold bits_sum. simpl. rewrite py_sum_nil. apply Z.bits_0.
  - rewrite bits_sum_S.
    destruct (p n) eqn:Hp.
    + rewrite add_shl1_testbit by apply bits_sum_bound.
      rewrite IH.
      destruct (Z.eqb_spec (Z.of_nat n) (Z.of_nat j)) as [Heq|Hne].
      * apply Nat2Z.inj in Heq. subst j.
        rewrite Hp, Nat.ltb_irrefl.
        replace (n <? S n)%nat with true by (symmetry; apply Nat.ltb_lt; lia).
        reflexivity.
      * rewrite orb_false_r.
        destruct (Nat.ltb_spec j n), (Nat.ltb_spec j (S n));
          try reflexivity; lia.
    + rewrite Z.add_0_r, IH.
      destruct (Nat.ltb_spec j n), (Nat.ltb_spec j (S n));
        try reflexivity; try lia.
      assert (j = n) by lia. subst j. rewrite Hp. reflexivity.
Qed.

Lemma extract_as_bits_sum (basis_state : Z) (qubits : list nat) :
  _extract_sub_basis_state basis_state qubits
  = bits_sum (fun i => Z.testbit basis_state (Z.of_nat (nth i qubits 0%nat)))
             (length qubits).
Proof.
  unfold _extract_sub_basis_state, bits_sum. do 2 f_equal.
  apply List.filter_ext. intros i. apply nonzero_land_shl1.
Qed.

(** ** Extraction *)

(** The extracted index is a local index: it lies in
    [[0, 2^len(qubits))]. *)
Lemma extract_sub_basis_state_range (basis_state : Z) (qubits : list nat) :
  0 <= _extract_sub_basis_state basis_state qubits
    < 2 ^ Z.of_nat (length qubits).
Proof. rewrite extract_as_bits_sum. apply bits_sum_bound. Qed.

(** An empty qubit list extracts local index 0. *)
Lemma extract_sub_basis_state_nil (basis_state : Z) :
  _extract_sub_basis_state basis_state [] = 0.
Proof. reflexivity. Qed.

(** C6: bit [i] of [_extract_sub_basis_state basis_state qubits] is bit
    [qubits[i]] of [basis_state], for every [i] below the length of the
    list; significance in the local index follows the order of the list. *)
Theorem extract_sub_basis_state_bit
    (basis_state : Z) (qubits : list nat) (i : nat) :
  (i < length qubits)%nat ->
  Z.testbit (_extract_sub_basis_state basis_state qubits) (Z.of_nat i)
  = Z.testbit basis_state (Z.of_nat (nth i qubits 0%nat)).
Proof.
  intros Hi. rewrite extract_as_bits_sum, bits_sum_testbit.
  replace (i <? length qubits)%nat with true
    by (symmetry; apply Nat.ltb_lt; exact Hi).
  reflexivity.
Qed.

Lemma extract_sub_basis_state_bit_witness :
  (0 < length [3%nat; 1%nat])%nat /\
  Z.testbit (_extract_sub_basis_state 8 [3%nat; 1%nat]) (Z.of_nat 0)
  = Z.testbit 8 (Z.of_nat (nth 0%nat [3%nat; 1%nat] 0%nat)).
Proof.
  split.
  - simpl. lia.
  - apply (extract_sub_basis_state_bit 8 [3%nat; 1%nat] 0). simpl. lia.
Defined.

(** With [qubits = [3, 1]] qubit 3 is the local least-significant bit and
    qubit 1 the next one. *)
Example extract_3_1_qubit3 : _extract_sub_basis_state 8 [3%nat; 1%nat] = 1.
Proof. reflexivity. Qed.

Example extract_3_1_qubit1 : _extract_sub_basis_state 2 [3%nat; 1%nat] = 2.
Proof. reflexivity. Qed.

(** ** Clearing bits *)

Lemma clear_bits_unfold (basis_state : Z) (apply_qubits : list nat) :
  _clear_bits basis_state apply_qubits
  = Z.land (basis_state - py_sum (map shl1 apply_qubits)) basis_state.
Proof. reflexivity. Qed.

(** With an empty list nothing is subtracted. *)
Lemma clear_bits_nil (basis_state : Z) : _clear_bits basis_state [] = basis_state.
Proof.
  unfold _clear_bits. simpl. rewrite py_sum_nil, Z.sub_0_r.
  apply Z.land_diag.
Qed.

Lemma qubit_mask_testbit (qubits : list nat) (j : Z) :
  Z.testbit (qubit_mask qubits) j
  = existsb (fun q => Z.of_nat q =? j) qubits.
Proof.
  induction qubits as [|q qubits IH]; simpl.
  - apply Z.bits_0.
  - rewrite Z.lor_spec, shl1_testbit, IH. reflexivity.
Qed.

Lemma qubit_mask_testbit_listed (qubits : list nat) (j : Z) :
  Z.testbit (qubit_mask qubits) j = true ->
  exists q, q ∈ qubits /\ Z.of_nat q = j.
Proof.
  rewrite qubit_mask_testbit. intros Hex.
  apply existsb_exists in Hex as (q & Hin & Hq).
  exists q. split.
  - apply list_elem_of_In. exact Hin.
  - apply Z.eqb_eq. exact Hq.
Qed.

(** Summing [1 << i] over a list without duplicates builds the mask. *)
Lemma mask_sum_NoDup (qubits : list nat) :
  NoDup qubits -> py_sum (map shl1 qubits) = qubit_mask qubits.
Proof.
  induction qubits as [|q qubits IH]; intros Hnd; simpl.
  - apply py_sum_nil.
  - apply NoDup_cons in Hnd as [Hnotin Hnd].
    rewrite py_sum_cons, (IH Hnd), <- Z.add_lor_land.
    assert (Hland : Z.land (shl1 q) (qubit_mask qubits) = 0).
    { apply Z.bits_inj'. intros n _.
      rewrite Z.land_spec, shl1_testbit, Z.bits_0.
      destruct (Z.eqb_spec (Z.of_nat q) n) as [Heq|_]; [|reflexivity].
      destruct (Z.testbit (qubit_mask qubits) n) eqn:Hbit; [|reflexivity].
      exfalso. apply Hnotin.
      destruct (qubit_mask_testbit_listed _ _ Hbit) as (q' & Hin & Hq').
      assert (q' = q) by lia. subst q'. exact Hin. }
    rewrite Hland. lia.
Qed.

(** Where the subtraction does not borrow, that is where every listed bit
    of [basis_state] is 1, [_clear_bits] is [basis_state AND NOT mask]. *)
Lemma clear_bits_all_set (basis_state : Z) (qubits : list nat) :
  NoDup qubits ->
  (forall q, q ∈ qubits -> Z.testbit basis_state (Z.of_nat q) = true) ->
  _clear_bits basis_state qubits = clear_bits_spec basis_state qubits.
Proof.
  intros Hnd Hset. unfold _clear_bits, clear_bits_spec.
  rewrite (mask_sum_NoDup _ Hnd).
  assert (Hsub : Z.ldiff (qubit_mask qubits) basis_state = 0).
  { apply Z.bits_inj'. intros n _.
    rewrite Z.ldiff_spec, Z.bits_0.
    destruct (Z.testbit (qubit_mask qubits) n) eqn:Hbit; [|reflexivity].
    destruct (qubit_mask_testbit_listed _ _ Hbit) as (q & Hin & Hq).
    subst n. rewrite (Hset q Hin). reflexivity. }
  rewrite (Z.sub_nocarry_ldiff _ _ Hsub), <- Z.ldiff_land.
  apply Z.bits_inj'. intros n _.
  rewrite Z.land_spec, !Z.ldiff_spec.
  destruct (Z.testbit basis_state n), (Z.testbit (qubit_mask qubits) n);
    reflexivity.
Qed.

(** C5: at [basis_state = 2], [apply_qubits = [0]] the subtraction borrows
    from bit 1: [(2 - 1) & 2 = 0], so bit 1, which is not listed, is
    cleared, while [basis_state AND NOT mask] is 2. *)
Theorem clear_bits_borrows_from_unlisted_bit :
  _clear_bits 2 [0%nat] = 0 /\
  clear_bits_spec 2 [0%nat] = 2 /\
  Z.testbit 2 1 = true /\
  Z.testbit (_clear_bits 2 [0%nat]) 1 = false.
Proof. repeat split. Qed.

(** ** numpy vectors and matrices *)

Section ArrayFacts.

Context {A : Type} `{Amplitude A}.

Lemma np_index_in_range (size : nat) (i : Z) :
  0 <= i < Z.of_nat size -> np_index size i = Ok (Z.to_nat i).
Proof.
  intros Hi. unfold np_index.
  replace (0 <=? i) with true by (symmetry; apply Z.leb_le; lia).
  replace (i <? Z.of_nat size) with true by (symmetry; apply Z.ltb_lt; lia).
  reflexivity.
Qed.

Lemma np_index_from_end (size : nat) (i : Z) :
  - Z.of_nat size <= i < 0 ->
  np_index size i = Ok (Z.to_nat (i + Z.of_nat size)).
Proof.
  intros Hi. unfold np_index.
  replace (0 <=? i) with false by (symmetry; apply Z.leb_gt; lia).
  replace (- Z.of_nat size <=? i) with true by (symmetry; apply Z.leb_le; lia).
  replace (i <? 0) with true by (symmetry; apply Z.ltb_lt; lia).
  reflexivity.
Qed.

Lemma np_index_outside (size : nat) (i : Z) :
  i < - Z.of_nat size \/ Z.of_nat size <= i ->
  np_index size i = Raise IndexError.
Proof.
  intros Hi. unfold np_index.
  destruct (Z.leb_spec 0 i), (Z.ltb_spec i (Z.of_nat size)),
    (Z.leb_spec (- Z.of_nat size) i), (Z.ltb_spec i 0);
    simpl; try reflexivity; lia.
Qed.

Lemma length_np_zeros (n : nat) : length (np_zeros n) = n.
Proof. apply length_replicate. Qed.

Lemma nth_insert_eq (r : list A) (j : nat) (x d : A) :
  (j < length r)%nat -> nth j (<[j := x]> r) d = x.
Proof.
  intros Hj. apply nth_lookup_Some, list_lookup_insert_eq. exact Hj.
Qed.

Lemma nth_insert_ne (r : list A) (j j' : nat) (x d : A) :
  j <> j' -> nth j' (<[j := x]> r) d = nth j' r d.
Proof.
  intros Hne. rewrite !nth_lookup, list_lookup_insert_ne by exact Hne.
  reflexivity.
Qed.

Lemma square_zeros (n : nat) : square n (replicate n (np_zeros n)).
Proof.
  split.
  - apply length_replicate.
  - apply Forall_replicate, length_np_zeros.
Qed.

Lemma square_ncols (n : nat) (m : list (list A)) :
  (0 < n)%nat -> square n m -> ncols m = n.
Proof.
  intros Hn [Hlen Hrows]. destruct m as [|r m]; simpl in *; [lia|].
  inversion Hrows; subst. assumption.
Qed.

Lemma column_write_same (m : list (list A)) (v : list A) (j : nat) :
  length v = length m ->
  Forall (fun r => (j < length r)%nat) m ->
  column (zip_with (fun r x => <[j := x]> r) m v) j = v.
Proof.
  revert v. induction m as [|r m IH]; intros [|x v] Hlen Hrows;
    simpl in *; try discriminate; [reflexivity|].
  inversion Hrows; subst.
  rewrite nth_insert_eq by assumption. f_equal.
  apply IH; [lia | assumption].
Qed.

Lemma column_write_other (m : list (list A)) (v : list A) (j j' : nat) :
  length v = length m -> j <> j' ->
  column (zip_with (fun r x => <[j := x]> r) m v) j' = column m j'.
Proof.
  revert v. induction m as [|r m IH]; intros [|x v] Hlen Hne;
    simpl in *; try discriminate; [reflexivity|].
  rewrite nth_insert_ne by assumption. f_equal.
  apply IH; [lia | assumption].
Qed.

Lemma rows_write_length (n : nat) (m : list (list A)) (v : list A) (j : nat) :
  Forall (fun r => length r = n) m ->
  Forall (fun r => length r = n) (zip_with (fun r x => <[j := x]> r) m v).
Proof.
  intros Hrows. revert v.
  induction Hrows as [|r m Hr Hm IH]; intros [|x v]; simpl;
    try constructor.
  - rewrite length_insert. exact Hr.
  - apply IH.
Qed.

(** Writing a column keeps the shape and the other columns; a vector of full
    length becomes the column. *)
Lemma set_column_ok (n : nat) (m m' : list (list A)) (v : list A) (j : nat) :
  square n m -> set_column m j v = Ok m' ->
  square n m' /\
  (forall j', j <> j' -> column m' j' = column m j') /\
  (length v = n -> (j < n)%nat -> column m' j = v).
Proof.
  intros [Hlen Hrows] Hset. unfold set_column in Hset.
  destruct (Nat.eqb_spec (length v) (length m)) as [Hv|Hv].
  - inversion Hset; subst m'; clear Hset.
    repeat split.
    + rewrite length_zip_with_l_eq by lia. exact Hlen.
    + apply rows_write_length. exact Hrows.
    + intros j' Hne. apply column_write_other; [exact Hv | exact Hne].
    + intros _ Hj. apply column_write_same; [exact Hv|].
      eapply Forall_impl; [exact Hrows|]. simpl. intros r Hr. lia.
  - destruct v as [|x [|y v]]; try discriminate.
    inversion Hset; subst m'; clear Hset.
    repeat split.
    + rewrite length_map. exact Hlen.
    + clear Hv Hlen. induction Hrows as [|r m Hr Hm IH]; simpl; constructor.
      * rewrite length_insert. exact Hr.
      * apply IH.
    + intros j' Hne. unfold column. rewrite map_map.
      apply map_ext. intros r. apply nth_insert_ne. exact Hne.
    + intros Hone _. simpl in *. lia.
Qed.

Lemma set_column_full (m : list (list A)) (v : list A) (j : nat) :
  length v = length m ->
  set_column m j v = Ok (zip_with (fun r x => <[j := x]> r) m v).
Proof.
  intros Hv. unfold set_column.
  replace (length v =? length m)%nat with true
    by (symmetry; apply Nat.eqb_eq; exact Hv).
  reflexivity.
Qed.

(** *** Materialising a basis-state evaluator *)

(** If the loop of [MatrixGate.from_eval_bs] finishes, every column it wrote
    from a state of full length holds the amplitudes of that state. *)
Lemma fill_columns_columns (n : nat) (f : Z -> result (State A))
    (bss : list nat) (mat mat' : list (list A)) :
  square n mat -> NoDup bss -> Forall (fun k => (k < n)%nat) bss ->
  fill_columns mat f bss = Ok mat' ->
  square n mat' /\
  (forall k, k ∉ bss -> column mat' k = column mat k) /\
  (forall k s, k ∈ bss -> f (Z.of_nat k) = Ok s ->
               length (amplitudes s) = n -> column mat' k = amplitudes s).
Proof.
  revert mat. induction bss as [|b bss IH]; intros mat Hsq Hnd Hlt Hfill;
    simpl in Hfill.
  - inversion Hfill; subst mat'. repeat split; try apply Hsq.
    intros k s Hk. inversion Hk.
  - destruct (f (Z.of_nat b)) as [s0|e] eqn:Hf; simpl in Hfill;
      [|discriminate].
    destruct (set_column mat b (amplitudes s0)) as [mat1|e] eqn:Hset;
      simpl in Hfill; [|discriminate].
    destruct (set_column_ok n mat mat1 _ b Hsq Hset) as (Hsq1 & Hoth & Hsame).
    apply NoDup_cons in Hnd as [Hnotin Hnd].
    apply Forall_cons in Hlt as [Hb Hlt].
    destruct (IH mat1 Hsq1 Hnd Hlt Hfill) as (Hsq' & Hout & Hin).
    repeat split; try apply Hsq'.
    + intros k Hk. apply not_elem_of_cons in Hk as [Hkb Hk].
      rewrite (Hout k Hk). apply Hoth. congruence.
    + intros k s Hk Hfk Hlen. apply elem_of_cons in Hk as [->|Hk].
      * rewrite (Hout b Hnotin).
        rewrite Hf in Hfk. inversion Hfk; subst s0.
        apply Hsame; assumption.
      * apply (Hin k s Hk Hfk Hlen).
Qed.

(** The loop finishes when the evaluator returns a state of full length at
    every basis state it is asked for. *)
Lemma fill_columns_succeeds (n : nat) (f : Z -> result (State A))
    (bss : list nat) (mat : list (list A)) :
  square n mat ->
  (forall k, k ∈ bss ->
     exists s, f (Z.of_nat k) = Ok s /\ length (amplitudes s) = n) ->
  exists mat', fill_columns mat f bss = Ok mat'.
Proof.
  revert mat. induction bss as [|b bss IH]; intros mat Hsq Hf; simpl.
  - eexists. reflexivity.
  - destruct (Hf b) as (s & Hs & Hlen); [apply elem_of_cons; left; reflexivity|].
    rewrite Hs. simpl.
    assert (Hv : length (amplitudes s) = length mat)
      by (destruct Hsq as [Hm _]; lia).
    rewrite (set_column_full mat _ b Hv). simpl.
    apply IH.
    + eapply set_column_ok; [exact Hsq | apply set_column_full; exact Hv].
    + intros k Hk. apply Hf, elem_of_cons. right. exact Hk.
Qed.

End ArrayFacts.

(** ** Sets of qubits *)

Lemma size_list_to_set_le (l : list nat) :
  (size (list_to_set l : gset nat) <= length l)%nat.
Proof.
  induction l as [|x l IH]; simpl.
  - change (size (∅ : gset nat) <= 0)%nat. rewrite size_empty. lia.
  - destruct (decide (x ∈ l)) as [Hin|Hnin].
    + assert (Heq : ({[x]} ∪ list_to_set l : gset nat) = list_to_set l).
      { apply subseteq_union_1_L, singleton_subseteq_l, elem_of_list_to_set.
        exact Hin. }
      rewrite Heq. lia.
    + rewrite size_union, size_singleton; [lia|].
      apply disjoint_singleton_l. rewrite elem_of_list_to_set. exact Hnin.
Qed.

(** [len(set(l)) == len(l)] says that [l] has no duplicate entry. *)
Lemma size_list_to_set_NoDup (l : list nat) :
  size (list_to_set l : gset nat) = length l <-> NoDup l.
Proof.
  split; [|apply size_list_to_set].
  induction l as [|x l IH]; simpl; intros Hsize.
  - constructor.
  - destruct (decide (x ∈ l)) as [Hin|Hnin].
    + assert (Heq : ({[x]} ∪ list_to_set l : gset nat) = list_to_set l).
      { apply subseteq_union_1_L, singleton_subseteq_l, elem_of_list_to_set.
        exact Hin. }
      rewrite Heq in Hsize. pose proof (size_list_to_set_le l). lia.
    + rewrite size_union, size_singleton in Hsize.
      * constructor; [exact Hnin | apply IH; lia].
      * apply disjoint_singleton_l. rewrite elem_of_list_to_set. exact Hnin.
Qed.

(** [set(l1).isdisjoint(set(l2))] says that no entry of [l1] is in [l2]. *)
Lemma list_to_set_disjoint (l1 l2 : list nat) :
  (list_to_set l1 : gset nat) ## list_to_set l2 <->
  (forall q, q ∈ l1 -> q ∉ l2).
Proof.
  split.
  - intros Hd q H1 H2.
    apply (Hd q); apply elem_of_list_to_set; assumption.
  - intros Hd q H1 H2.
    apply elem_of_list_to_set in H1, H2. exact (Hd q H1 H2).
Qed.

Lemma controlled_u_checks_pass (apply_qubits control_qubits : list nat) :
  valid_qubit_lists apply_qubits control_qubits ->
  controlled_u_checks apply_qubits control_qubits = Ok tt.
Proof.
  intros (Hc & Ha & Hd). unfold controlled_u_checks.
  apply size_list_to_set_NoDup in Hc, Ha.
  rewrite Hc, Ha, !Nat.eqb_refl. simpl.
  rewrite bool_decide_eq_true_2; [reflexivity|].
  apply list_to_set_disjoint. exact Hd.
Qed.

Lemma controlled_u_checks_fail (apply_qubits control_qubits : list nat) :
  ~ valid_qubit_lists apply_qubits control_qubits ->
  controlled_u_checks apply_qubits control_qubits = Raise AssertionError.
Proof.
  intros Hnot. unfold controlled_u_checks.
  destruct (Nat.eqb_spec (size (list_to_set control_qubits : gset nat))
              (length control_qubits)) as [Hc|Hc]; simpl; [|reflexivity].
  destruct (Nat.eqb_spec (size (list_to_set apply_qubits : gset nat))
              (length apply_qubits)) as [Ha|Ha]; simpl; [|reflexivity].
  destruct (bool_decide_reflect
              ((list_to_set control_qubits : gset nat)
                 ## list_to_set apply_qubits)) as [Hd|Hd];
    simpl; [|reflexivity].
  exfalso. apply Hnot. repeat split.
  - apply size_list_to_set_NoDup. exact Hc.
  - apply size_list_to_set_NoDup. exact Ha.
  - apply list_to_set_disjoint. exact Hd.
Qed.

(** ** Gates *)

Section GateFacts.

Context {A : Type} `{Amplitude A}.

Lemma pow2_pos (n : nat) : (0 < pow2 n)%nat.
Proof.
  unfold pow2. induction n as [|n IH]; simpl; lia.
Qed.

Lemma pow2_Z (n : nat) : Z.of_nat (pow2 n) = 2 ^ Z.of_nat n.
Proof. unfold pow2. rewrite Nat2Z.inj_pow. reflexivity. Qed.

Lemma range_pow2_cons (n : nat) :
  exists ks, range (pow2 n) = 0%nat :: ks.
Proof.
  unfold range. pose proof (pow2_pos n) as Hn.
  destruct (pow2 n) as [|m]; [lia|].
  simpl. eexists. reflexivity.
Qed.

Lemma from_basis_state_in_range (n : nat) (bs : Z) :
  0 <= bs < Z.of_nat n ->
  from_basis_state n bs = Ok (mkState (unit_vector n (Z.to_nat bs))).
Proof.
  intros Hbs. unfold from_basis_state.
  replace (0 <=? bs) with true by (symmetry; apply Z.leb_le; lia).
  replace (bs <? Z.of_nat n) with true by (symmetry; apply Z.ltb_lt; lia).
  reflexivity.
Qed.

Lemma length_unit_vector (n k : nat) : length (unit_vector (A:=A) n k) = n.
Proof. unfold unit_vector. rewrite length_insert. apply length_np_zeros. Qed.

(** *** Evaluation at an index outside the basis *)

(** C7: [FunctionalGate.eval_bs] hands any index to the wrapped function
    and returns what it returns; [MatrixGate.eval_bs], on a matrix with
    [basis_size] columns, raises [IndexError] for [k >= basis_size] and for
    [k < -basis_size], and for [-basis_size <= k < 0] returns column
    [k + basis_size]. *)
Theorem eval_bs_index_check :
  (forall (qc : nat) (f : Z -> result (State A)) (k : Z),
     eval_bs (FunctionalGate qc f) k = f k) /\
  (forall (qc : nat) (m : list (list A)) (k : Z),
     ncols m = pow2 qc ->
     k < - Z.of_nat (pow2 qc) \/ Z.of_nat (pow2 qc) <= k ->
     eval_bs (MatrixGate qc m) k = Raise IndexError) /\
  (forall (qc : nat) (m : list (list A)) (k : Z),
     ncols m = pow2 qc ->
     - Z.of_nat (pow2 qc) <= k < 0 ->
     eval_bs (MatrixGate qc m) k
     = Ok (mkState (column m (Z.to_nat (k + Z.of_nat (pow2 qc)))))).
Proof.
  repeat split.
  - intros qc m k Hcols Hk. simpl. rewrite Hcols.
    rewrite np_index_outside by exact Hk. reflexivity.
  - intros qc m k Hcols Hk. simpl. rewrite Hcols.
    rewrite np_index_from_end by exact Hk. reflexivity.
Qed.

(** In range, [MatrixGate.eval_bs] returns the column. *)
Lemma eval_bs_matrix_in_range (qc : nat) (m : list (list A)) (k : Z) :
  0 <= k < Z.of_nat (ncols m) ->
  eval_bs (MatrixGate qc m) k = Ok (mkState (column m (Z.to_nat k))).
Proof.
  intros Hk. simpl. rewrite np_index_in_range by exact Hk. reflexivity.
Qed.

(** *** Materialisation *)

(** A gate built by [MatrixGate.from_eval_bs] returns, at a basis state
    where the evaluator gave a state of full length, that state. *)
Lemma matrix_from_eval_bs_column (qc : nat) (f : Z -> result (State A))
    (g : Gate A) (bs : Z) (v : list A) :
  from_eval_bs MatrixGateClass qc f = Ok g ->
  0 <= bs < 2 ^ Z.of_nat qc ->
  f bs = Ok (mkState v) -> length v = pow2 qc ->
  eval_bs g bs = Ok (mkState v).
Proof.
  intros Hg Hbs Hf Hlen. simpl in Hg.
  destruct (fill_columns _ f (range (pow2 qc))) as [mat'|e] eqn:Hfill;
    simpl in Hg; [|discriminate].
  inversion Hg; subst g; clear Hg.
  rewrite <- pow2_Z in Hbs.
  destruct (fill_columns_columns (pow2 qc) f (range (pow2 qc)) _ mat'
              (square_zeros _) (NoDup_seq _ _)) as (Hsq & _ & Hcol);
    [|exact Hfill|].
  { apply Forall_forall. intros k Hk. apply elem_of_seq in Hk. lia. }
  rewrite eval_bs_matrix_in_range
    by (rewrite (square_ncols _ _ (pow2_pos qc) Hsq); exact Hbs).
  f_equal. f_equal.
  apply (Hcol (Z.to_nat bs) (mkState v)).
  - apply elem_of_seq. lia.
  - rewrite Z2Nat.id by lia. exact Hf.
  - exact Hlen.
Qed.

(** [MatrixGate.from_eval_bs] succeeds when the evaluator returns a state of
    full length at every basis state. *)
Lemma matrix_from_eval_bs_succeeds (qc : nat) (f : Z -> result (State A)) :
  (forall bs, 0 <= bs < 2 ^ Z.of_nat qc ->
     exists s, f bs = Ok s /\ length (amplitudes s) = pow2 qc) ->
  exists g, from_eval_bs MatrixGateClass qc f = Ok g.
Proof.
  intros Hf. simpl.
  destruct (fill_columns_succeeds (pow2 qc) f (range (pow2 qc))
              (replicate (pow2 qc) (np_zeros (pow2 qc))) (square_zeros _))
    as [mat' Hmat'].
  - intros k Hk. apply elem_of_seq in Hk. apply Hf.
    rewrite <- pow2_Z. lia.
  - rewrite Hmat'. simpl. eexists. reflexivity.
Qed.

(** *** controlled_u *)

(** The identity branch of the closure of [controlled_u]: the sub-gate [u]
    does not occur in the result. *)
Lemma controlled_u_eval_bs_identity (qc : nat) (control_mask : Z) (u : Gate A)
    (apply_qubits : list nat) (bs : Z) :
  0 <= bs < 2 ^ Z.of_nat qc ->
  Z.land bs control_mask <> control_mask ->
  controlled_u_eval_bs (pow2 qc) control_mask u apply_qubits bs
  = Ok (mkState (unit_vector (pow2 qc) (Z.to_nat bs))).
Proof.
  intros Hbs Hmask. unfold controlled_u_eval_bs.
  replace (Z.land bs control_mask =? control_mask) with false
    by (symmetry; apply Z.eqb_neq; exact Hmask).
  simpl. apply from_basis_state_in_range. rewrite pow2_Z. exact Hbs.
Qed.

(** C9: for a basis state [bs] of the register in which not every control
    qubit is 1, the closure of [controlled_u] returns the unit state at
    [bs] whatever the sub-gate [u] is (also one whose [eval_bs] raises), and
    so does [eval_bs] of the gate of either class that [controlled_u]
    returned. *)
Theorem controlled_u_identity_branch (qc : nat) (u : Gate A)
    (apply_qubits control_qubits : list nat) (bs : Z) :
  0 <= bs < 2 ^ Z.of_nat qc ->
  Z.land bs (control_mask_of control_qubits) <> control_mask_of control_qubits ->
  controlled_u_eval_bs (pow2 qc) (control_mask_of control_qubits) u
    apply_qubits bs
  = Ok (mkState (unit_vector (pow2 qc) (Z.to_nat bs))) /\
  (forall (cls : gate_class) (g : Gate A),
     controlled_u cls qc u apply_qubits control_qubits = Ok g ->
     eval_bs g bs = Ok (mkState (unit_vector (pow2 qc) (Z.to_nat bs)))).
Proof.
  intros Hbs Hmask.
  pose proof (controlled_u_eval_bs_identity qc _ u apply_qubits bs Hbs Hmask)
    as Hid.
  split; [exact Hid|].
  intros cls g Hg. unfold controlled_u in Hg.
  destruct (controlled_u_checks apply_qubits control_qubits) as [[]|e];
    simpl in Hg; [|discriminate].
  destruct cls.
  - inversion Hg; subst g. exact Hid.
  - inversion Hg; subst g. exact Hid.
  - eapply matrix_from_eval_bs_column; [exact Hg | exact Hbs | exact Hid |].
    apply length_unit_vector.
Qed.

(** C8: [controlled_u] runs its three assertions before anything else. With
    a duplicate in [control_qubits] or in [apply_qubits], or a qubit in
    both, it raises [AssertionError] for every class and every [u]. With
    valid lists it goes on to [cls.from_eval_bs]: on [Gate] and
    [FunctionalGate] that stores the closure and cannot fail; on
    [MatrixGate] the result is that of evaluating the closure at every
    basis state. *)
Theorem controlled_u_eager_validation (cls : gate_class) (qc : nat)
    (u : Gate A) (apply_qubits control_qubits : list nat) :
  (~ valid_qubit_lists apply_qubits control_qubits ->
   controlled_u cls qc u apply_qubits control_qubits = Raise AssertionError) /\
  (valid_qubit_lists apply_qubits control_qubits ->
   controlled_u cls qc u apply_qubits control_qubits
   = from_eval_bs cls qc
       (controlled_u_eval_bs (pow2 qc) (control_mask_of control_qubits) u
          apply_qubits) /\
   (cls <> MatrixGateClass ->
    controlled_u cls qc u apply_qubits control_qubits
    = Ok (FunctionalGate qc
            (controlled_u_eval_bs (pow2 qc) (control_mask_of control_qubits) u
               apply_qubits)))).
Proof.
  split.
  - intros Hbad. unfold controlled_u.
    rewrite (controlled_u_checks_fail _ _ Hbad). reflexivity.
  - intros Hgood. unfold controlled_u.
    rewrite (controlled_u_checks_pass _ _ Hgood). simpl.
    split; [reflexivity|].
    intros Hcls. destruct cls; try reflexivity. contradiction.
Qed.

(** *** multi_gate *)

Lemma insert_scalar (n : nat) (bs : Z) (v : A) :
  0 <= bs < Z.of_nat n ->
  _insert_sub_bit_superpos n bs [v] []
  = Ok (mkState (<[Z.to_nat bs := v]> (np_zeros n))).
Proof.
  intros Hbs. unfold _insert_sub_bit_superpos. simpl.
  rewrite clear_bits_nil. unfold np_setitem.
  rewrite length_np_zeros.
  change (set_apply [] 0 + bs) with bs.
  rewrite np_index_in_range by exact Hbs. reflexivity.
Qed.

(** With no qubit listed the closure of [multi_gate] never calls [gate]. *)
Lemma multi_gate_eval_bs_nil (qc : nat) (gate : Gate A) (bs : Z) :
  0 <= bs < 2 ^ Z.of_nat qc ->
  multi_gate_eval_bs qc gate [] bs
  = Ok (mkState (unit_vector (pow2 qc) (Z.to_nat bs))).
Proof.
  intros Hbs. unfold multi_gate_eval_bs. simpl.
  change (mul []) with (aone (A:=A)).
  apply insert_scalar. rewrite pow2_Z. exact Hbs.
Qed.

(** C10: [multi_gate] with an empty [apply_qubits] builds, on every class,
    a gate whose [eval_bs] returns the unit state at [bs] for every basis
    state [bs] of the register, whatever [gate] is. *)
Theorem multi_gate_empty_is_identity (cls : gate_class) (qc : nat)
    (gate : Gate A) (bs : Z) :
  0 <= bs < 2 ^ Z.of_nat qc ->
  exists g, multi_gate cls qc gate [] = Ok g /\
            eval_bs g bs = Ok (mkState (unit_vector (pow2 qc) (Z.to_nat bs))).
Proof.
  intros Hbs. unfold multi_gate.
  destruct cls.
  - eexists. split; [reflexivity|]. apply multi_gate_eval_bs_nil, Hbs.
  - eexists. split; [reflexivity|]. apply multi_gate_eval_bs_nil, Hbs.
  - destruct (matrix_from_eval_bs_succeeds qc
                (multi_gate_eval_bs qc gate [])) as [g Hg].
    + intros k Hk. eexists. split.
      * apply multi_gate_eval_bs_nil, Hk.
      * apply length_unit_vector.
    + exists g. split; [exact Hg|].
      eapply matrix_from_eval_bs_column; [exact Hg | exact Hbs | |].
      * apply multi_gate_eval_bs_nil, Hbs.
      * apply length_unit_vector.
Qed.

Lemma gate_call_int (gate : Gate A) (z : Z) :
  gate_call gate (PyInt z) = Raise (call_on_int_error gate).
Proof.
  destruct gate as [qc f|qc m]; simpl.
  - destruct (range_pow2_cons qc) as [ks ->]. reflexivity.
  - reflexivity.
Qed.

(** With at least one qubit listed the closure of [multi_gate] raises at
    every basis state, on its first [gate(...)]. *)
Lemma multi_gate_eval_bs_raises (qc : nat) (gate : Gate A) (q : nat)
    (qs : list nat) (bs : Z) :
  multi_gate_eval_bs qc gate (q :: qs) bs = Raise (call_on_int_error gate).
Proof.
  unfold multi_gate_eval_bs. simpl. rewrite gate_call_int. reflexivity.
Qed.

(** *** Composition *)

(** A functional left operand composes as the docstring of [__mul__] says:
    the product evaluates [g2] first and then applies [g1]. *)
Lemma mul_functional_left (qc : nat) (f : Z -> result (State A))
    (g2 : Gate A) (k : Z) :
  exists g, gate_mul (FunctionalGate qc f) g2 = Ok g /\
            eval_bs g k
            = (s <~ eval_bs g2 k ;; gate_call (FunctionalGate qc f) (PyState s)).
Proof. eexists. split; reflexivity. Qed.

(** A matrix left operand with a functional right operand hands the product
    to the right operand with the operands exchanged: the result evaluates
    [g1] first and then applies [g2]. *)
Lemma mul_matrix_functional (qc qc2 : nat) (m : list (list A))
    (f : Z -> result (State A)) (k : Z) :
  exists g, gate_mul (MatrixGate qc m) (FunctionalGate qc2 f) = Ok g /\
            eval_bs g k
            = (s <~ eval_bs (MatrixGate qc m) k ;;
               gate_call (FunctionalGate qc2 f) (PyState s)).
Proof. eexists. split; reflexivity. Qed.

Lemma nth_map_range (T : Type) (f : nat -> T) (n k : nat) (d : T) :
  (k < n)%nat -> nth k (map f (range n)) d = f k.
Proof.
  intros Hk. unfold range.
  rewrite (nth_indep _ d (f 0%nat)) by (rewrite length_map, length_seq; exact Hk).
  rewrite map_nth, seq_nth by exact Hk. reflexivity.
Qed.

Lemma length_column (m : list (list A)) (j : nat) : length (column m j) = length m.
Proof. unfold column. apply length_map. Qed.

(** Column [k] of [np.dot(m1, m2)] is [np.dot(m1, m2[:, k])]. *)
Lemma column_np_dot_mm (m1 m2 m : list (list A)) (k : nat) :
  np_dot_mm m1 m2 = Ok m -> (k < ncols m2)%nat ->
  np_dot_mv m1 (column m2 k) = Ok (column m k).
Proof.
  unfold np_dot_mm, np_dot_mv. rewrite length_column.
  destruct (ncols m1 =? length m2)%nat; [|discriminate].
  intros Hm Hk. inversion Hm; subst m; clear Hm. f_equal.
  unfold column at 2. rewrite map_map. apply map_ext. intros r.
  rewrite nth_map_range by exact Hk. reflexivity.
Qed.

Lemma ncols_np_dot_mm (m1 m2 m : list (list A)) :
  np_dot_mm m1 m2 = Ok m -> m1 <> [] -> ncols m = ncols m2.
Proof.
  unfold np_dot_mm.
  destruct (ncols m1 =? length m2)%nat; [|discriminate].
  intros Hm Hne. inversion Hm; subst m; clear Hm.
  destruct m1 as [|r m1]; [contradiction|]. simpl.
  rewrite length_map. unfold range. apply length_seq.
Qed.

(** Two matrix operands compose as the docstring of [__mul__] says: when
    the shapes allow the matrix product, its column [k] is [g1] applied to
    column [k] of [g2]. *)
Lemma mul_matrix_matrix (qc qc2 : nat) (m1 m2 : list (list A)) (k : Z) :
  ncols m1 = length m2 -> m1 <> [] -> 0 <= k < Z.of_nat (ncols m2) ->
  exists g, gate_mul (MatrixGate qc m1) (MatrixGate qc2 m2) = Ok g /\
            eval_bs g k
            = (s <~ eval_bs (MatrixGate qc2 m2) k ;;
               gate_call (MatrixGate qc m1) (PyState s)).
Proof.
  intros Hshape Hne Hk. simpl.
  destruct (np_dot_mm m1 m2) as [m|e] eqn:Hm.
  - exists (MatrixGate qc m). split; [reflexivity|]. simpl.
    rewrite (ncols_np_dot_mm _ _ _ Hm Hne).
    rewrite np_index_in_range by exact Hk. simpl.
    rewrite (column_np_dot_mm _ _ _ _ Hm) by lia. reflexivity.
  - unfold np_dot_mm in Hm.
    replace (ncols m1 =? length m2)%nat with true in Hm
      by (symmetry; apply Nat.eqb_eq; exact Hshape).
    discriminate.
Qed.

End GateFacts.

(** ** Evaluations on concrete gates *)

Section IntegerGates.

Local Open Scope Z_scope.

(** C1: with [qubit_count = 2], [bs = 2] and [Q = [0]] the extracted local
    index is 0, and scattering the local unit vector at 0 back gives the
    unit vector at global index 0, not at 2: [_clear_bits 2 [0]] is 0, so
    the untouched bit 1 of [bs] is lost. *)
Theorem insert_after_extract_loses_untouched_bit :
  _extract_sub_basis_state 2 [0%nat] = 0 /\
  _insert_sub_bit_superpos (pow2 2) 2
    (unit_vector (A:=Z) (pow2 1)
       (Z.to_nat (_extract_sub_basis_state 2 [0%nat])))
    [0%nat]
  = Ok (mkState (unit_vector 4 0)) /\
  unit_vector (A:=Z) 4 0 <> unit_vector 4 2.
Proof.
  split; [reflexivity|]. split; [reflexivity|].
  vm_compute. discriminate.
Qed.

(** When every listed bit of [bs] is 1 nothing is borrowed and the same
    call returns the unit vector at [bs]. *)
Example insert_after_extract_at_3 :
  _insert_sub_bit_superpos (pow2 2) 3
    (unit_vector (A:=Z) (pow2 1)
       (Z.to_nat (_extract_sub_basis_state 3 [0%nat])))
    [0%nat]
  = Ok (mkState (unit_vector 4 3)).
Proof. reflexivity. Qed.

(** The test [(i + 1) & k] of [set_apply] reads bit [i] of [k] for
    [i = 0] and [i = 1] only: for [i = 2] it tests [3 & k]. *)
Example set_apply_third_qubit :
  set_apply [0%nat; 1%nat; 2%nat] 4 = 0 /\
  set_apply [0%nat; 1%nat; 2%nat] 3 = 7.
Proof. split; reflexivity. Qed.

(** C2: with [g1] the matrix gate of [[1, 1], [0, 1]] and [g2] a functional
    gate whose columns are those of [[1, 0], [1, 1]], [(g1 * g2).eval_bs(0)]
    is [[1, 1]], which is [g2] applied to [g1.eval_bs(0)], while [g1] applied
    to [g2.eval_bs(0)] is [[2, 1]]. *)
Theorem mul_matrix_functional_applies_left_first :
  (g <~ gate_mul mul_example_g1 mul_example_g2 ;; eval_bs g 0)
  = Ok (mkState [1; 1]) /\
  (s <~ eval_bs mul_example_g2 0 ;; gate_call mul_example_g1 (PyState s))
  = Ok (mkState [2; 1]) /\
  (s <~ eval_bs mul_example_g1 0 ;; gate_call mul_example_g2 (PyState s))
  = Ok (mkState [1; 1]).
Proof. repeat split. Qed.

(** C7, as stated, fails for both variants: a functional gate on one qubit
    whose function ignores its argument returns a state at index 2, and a
    matrix gate on one qubit returns its last column at index -1. *)
Lemma eval_bs_outside_basis_returns :
  basis_size constant_gate = 2%nat /\
  eval_bs constant_gate 2 = Ok (mkState [1; 0]) /\
  basis_size mul_example_g1 = 2%nat /\
  eval_bs mul_example_g1 (-1) = Ok (mkState [1; 1]).
Proof. repeat split. Qed.

Lemma eval_bs_index_check_witness :
  ncols (A:=Z) [[1; 1]; [0; 1]] = pow2 1 /\
  (- Z.of_nat (pow2 1) <= -1 < 0) /\
  eval_bs (MatrixGate 1 [[1; 1]; [0; 1]]) (-1)
  = Ok (mkState (column [[1; 1]; [0; 1]]
                   (Z.to_nat (-1 + Z.of_nat (pow2 1))))).
Proof.
  split; [reflexivity|].
  split; [change (Z.of_nat (pow2 1)) with 2; lia|].
  apply (proj2 (proj2 (eval_bs_index_check (A:=Z)))).
  - reflexivity.
  - change (Z.of_nat (pow2 1)) with 2. lia.
Defined.

(** C8, as stated, fails on [MatrixGate]: with one qubit, [apply_qubits =
    [1]] and no control qubit the lists are valid, and construction raises
    [IndexError] while it evaluates the gate at basis state 0. *)
Lemma controlled_u_matrix_construction_raises :
  valid_qubit_lists [1%nat] [] /\
  controlled_u MatrixGateClass 1 hadamard_unnormalised [1%nat] []
  = Raise IndexError.
Proof.
  split.
  - repeat split.
    + constructor.
    + apply NoDup_singleton.
    + intros q Hq. inversion Hq.
  - reflexivity.
Qed.

Lemma controlled_u_eager_validation_witness :
  ~ valid_qubit_lists [0%nat; 0%nat] [] /\
  controlled_u MatrixGateClass 1 hadamard_unnormalised [0%nat; 0%nat] []
  = Raise AssertionError.
Proof.
  assert (Hbad : ~ valid_qubit_lists [0%nat; 0%nat] []).
  { intros (_ & Hnd & _). apply NoDup_cons in Hnd as [Hnotin _].
    apply Hnotin. constructor. }
  split; [exact Hbad|].
  apply (proj1 (controlled_u_eager_validation MatrixGateClass 1
                  hadamard_unnormalised [0%nat; 0%nat] [])).
  exact Hbad.
Defined.

Lemma controlled_u_identity_branch_witness :
  (0 <= 2 < 2 ^ Z.of_nat 3) /\
  Z.land 2 (control_mask_of [0%nat]) <> control_mask_of [0%nat] /\
  controlled_u_eval_bs (pow2 3) (control_mask_of [0%nat]) raising_gate
    [1%nat] 2
  = Ok (mkState (unit_vector (pow2 3) (Z.to_nat 2))) /\
  (forall (cls : gate_class) (g : Gate Z),
     controlled_u cls 3 raising_gate [1%nat] [0%nat] = Ok g ->
     eval_bs g 2 = Ok (mkState (unit_vector (pow2 3) (Z.to_nat 2)))).
Proof.
  assert (Hbs : 0 <= 2 < 2 ^ Z.of_nat 3)
    by (change (2 ^ Z.of_nat 3) with 8; lia).
  assert (Hmask : Z.land 2 (control_mask_of [0%nat]) <> control_mask_of [0%nat])
    by (vm_compute; discriminate).
  split; [exact Hbs|]. split; [exact Hmask|].
  exact (controlled_u_identity_branch 3 raising_gate [1%nat] [0%nat] 2
           Hbs Hmask).
Defined.

Lemma multi_gate_empty_is_identity_witness :
  (0 <= 1 < 2 ^ Z.of_nat 1) /\
  exists g, multi_gate MatrixGateClass 1 raising_gate [] = Ok g /\
            eval_bs g 1 = Ok (mkState (unit_vector (pow2 1) (Z.to_nat 1))).
Proof.
  assert (Hbs : 0 <= 1 < 2 ^ Z.of_nat 1)
    by (change (2 ^ Z.of_nat 1) with 2; lia).
  split; [exact Hbs|].
  exact (multi_gate_empty_is_identity MatrixGateClass 1 raising_gate 1 Hbs).
Defined.

End IntegerGates.

Section RationalGates.

(** C3: [MatrixGate.controlled_u(3, hadamard, [1], [0])] succeeds, but the
    matrix it stores is not the one of the docstring: column 5 repeats
    column 1 (entries [s2] in rows 1 and 3) where the docstring has [s2] in
    rows 5 and 7, because [_clear_bits 5 [1]] is 1 and not 5. The two
    matrices differ by more than [1e-6]. *)
Theorem controlled_u_worked_example_column_5 :
  controlled_u MatrixGateClass 3 hadamard [1%nat] [0%nat]
  = Ok (MatrixGate 3 controlled_u_example_matrix) /\
  _clear_bits 5 [1%nat] = 1 /\
  column controlled_u_example_matrix 5 = [0; s2; 0; s2; 0; 0; 0; 0]%Q /\
  column worked_example_matrix 5 = [0; 0; 0; 0; 0; s2; 0; s2]%Q /\
  within_tolerance (1 # 1000000) controlled_u_example_matrix
    worked_example_matrix = false.
Proof. repeat split. Qed.

(** The other seven columns are those of the docstring. *)
Example controlled_u_worked_example_other_columns :
  Forall (fun k => column controlled_u_example_matrix k
                   = column worked_example_matrix k)
    [0; 1; 2; 3; 4; 6; 7]%nat.
Proof. repeat constructor. Qed.

(** C4: [multi_gate(n, hadamard, [0, ..., n-1])] produces no column at all
    for [n = 2] and [n = 3]: on [MatrixGate] construction raises
    [AttributeError]; on [Gate] and [FunctionalGate] the gate is built and
    its [eval_bs] raises [AttributeError] at every basis state, since the
    closure calls [gate(...)] on an int. *)
Theorem multi_gate_hadamard_raises :
  multi_gate MatrixGateClass 2 hadamard (range 2) = Raise AttributeError /\
  multi_gate MatrixGateClass 3 hadamard (range 3) = Raise AttributeError /\
  (forall k : Z,
     (g <~ multi_gate FunctionalGateClass 2 hadamard (range 2) ;; eval_bs g k)
     = Raise AttributeError) /\
  (forall k : Z,
     (g <~ multi_gate FunctionalGateClass 3 hadamard (range 3) ;; eval_bs g k)
     = Raise AttributeError).
Proof.
  split; [reflexivity|]. split; [reflexivity|].
  split; intros k; simpl; apply (multi_gate_eval_bs_raises _ hadamard).
Qed.

End RationalGates.

(** * Further properties *)

(** ** Bit-index algebra *)

Lemma bits_sum_ext_in (p p' : nat -> bool) (n : nat) :
  (forall i, (i < n)%nat -> p i = p' i) -> bits_sum p n = bits_sum p' n.
Proof.
  intros Hp. unfold bits_sum. do 2 f_equal.
  apply List.filter_ext_in. intros i Hi.
  apply in_seq in Hi. apply Hp. lia.
Qed.

Lemma nth_listed (qubits : list nat) (i : nat) :
  (i < length qubits)%nat -> nth i qubits 0%nat ∈ qubits.
Proof.
  intros Hi. apply list_elem_of_In, nth_In. exact Hi.
Qed.

(** X1: the extracted index is a local index of the listed qubits: it lies
    in [[0, 2^len(qubits))], whatever the basis state (negative too) and
    whatever the list. *)
Theorem extract_sub_basis_state_is_local_index
    (basis_state : Z) (qubits : list nat) :
  0 <= _extract_sub_basis_state basis_state qubits
    < 2 ^ Z.of_nat (length qubits).
Proof. rewrite extract_as_bits_sum. apply bits_sum_bound. Qed.

(** X2: extraction reads the listed qubits only: two basis states that agree
    on every listed qubit have the same local index. *)
Theorem extract_sub_basis_state_reads_listed_only
    (bs bs' : Z) (qubits : list nat) :
  (forall q, q ∈ qubits ->
     Z.testbit bs (Z.of_nat q) = Z.testbit bs' (Z.of_nat q)) ->
  _extract_sub_basis_state bs qubits = _extract_sub_basis_state bs' qubits.
Proof.
  intros Hagree. rewrite !extract_as_bits_sum.
  apply bits_sum_ext_in. intros i Hi.
  apply Hagree, nth_listed, Hi.
Qed.

Lemma extract_sub_basis_state_reads_listed_only_witness :
  (forall q, q ∈ [0%nat; 2%nat] ->
     Z.testbit 5 (Z.of_nat q) = Z.testbit 7 (Z.of_nat q)) /\
  _extract_sub_basis_state 5 [0%nat; 2%nat]
  = _extract_sub_basis_state 7 [0%nat; 2%nat].
Proof.
  assert (Hagree : forall q, q ∈ [0%nat; 2%nat] ->
            Z.testbit 5 (Z.of_nat q) = Z.testbit 7 (Z.of_nat q)).
  { intros q Hq. apply elem_of_cons in Hq as [->|Hq]; [reflexivity|].
    apply elem_of_cons in Hq as [->|Hq]; [reflexivity|].
    inversion Hq. }
  split; [exact Hagree|].
  apply (extract_sub_basis_state_reads_listed_only 5 7 [0%nat; 2%nat] Hagree).
Defined.

Lemma nonzero_shl1_land (i : nat) (k : Z) :
  nonzero (Z.land (shl1 i) k) = Z.testbit k (Z.of_nat i).
Proof. rewrite Z.land_comm. apply nonzero_land_shl1. Qed.

(** X3: [_is_set i k] is bit [i] of [k], for [k] of either sign. *)
Theorem is_set_is_testbit (i : nat) (k : Z) :
  _is_set i k = Z.testbit k (Z.of_nat i).
Proof. unfold _is_set. apply nonzero_shl1_land. Qed.

Lemma land_le_r (a b : Z) : 0 <= b -> Z.land a b <= b.
Proof.
  intros Hb.
  assert (Hdisj : Z.land (Z.land a b) (Z.ldiff b a) = 0).
  { apply Z.bits_inj'. intros n _.
    rewrite !Z.land_spec, Z.ldiff_spec, Z.bits_0.
    destruct (Z.testbit a n), (Z.testbit b n); reflexivity. }
  assert (Hsum : Z.land a b + Z.ldiff b a = b).
  { rewrite (Z.add_nocarry_lxor _ _ Hdisj), (Z.lxor_lor _ _ Hdisj).
    apply Z.bits_inj'. intros n _.
    rewrite Z.lor_spec, Z.land_spec, Z.ldiff_spec.
    destruct (Z.testbit a n), (Z.testbit b n); reflexivity. }
  assert (0 <= Z.ldiff b a) by (apply Z.ldiff_nonneg; left; exact Hb).
  lia.
Qed.

(** X4: [_clear_bits] never sets a bit: every bit of its result is a bit of
    [basis_state], and for a non-negative [basis_state] the result lies in
    [[0, basis_state]], whatever the list of qubits. *)
Theorem clear_bits_is_submask (basis_state : Z) (qubits : list nat) :
  0 <= basis_state ->
  0 <= _clear_bits basis_state qubits <= basis_state /\
  (forall j, Z.testbit (_clear_bits basis_state qubits) j = true ->
             Z.testbit basis_state j = true).
Proof.
  intros Hbs. unfold _clear_bits. repeat split.
  - apply Z.land_nonneg. right. exact Hbs.
  - apply land_le_r. exact Hbs.
  - intros j Hj. destruct (Z.neg_nonneg_cases j) as [Hneg|Hpos].
    + rewrite Z.testbit_neg_r in Hj by exact Hneg. discriminate.
    + rewrite Z.land_spec in Hj. apply andb_true_iff in Hj. apply Hj.
Qed.

Lemma clear_bits_is_submask_witness :
  0 <= 6 /\
  0 <= _clear_bits 6 [0%nat] <= 6 /\
  (forall j, Z.testbit (_clear_bits 6 [0%nat]) j = true ->
             Z.testbit 6 j = true).
Proof.
  assert (H6 : 0 <= 6) by lia.
  split; [exact H6|].
  apply (clear_bits_is_submask 6 [0%nat] H6).
Defined.

(** Where nothing is borrowed the subtraction itself clears the bits. *)
Lemma clear_bits_no_borrow (basis_state : Z) (qubits : list nat) :
  NoDup qubits ->
  (forall q, q ∈ qubits -> Z.testbit basis_state (Z.of_nat q) = true) ->
  _clear_bits basis_state qubits = basis_state - py_sum (map shl1 qubits).
Proof.
  intros Hnd Hset. unfold _clear_bits.
  rewrite (mask_sum_NoDup _ Hnd).
  assert (Hsub : Z.ldiff (qubit_mask qubits) basis_state = 0).
  { apply Z.bits_inj'. intros n _.
    rewrite Z.ldiff_spec, Z.bits_0.
    destruct (Z.testbit (qubit_mask qubits) n) eqn:Hbit; [|reflexivity].
    destruct (qubit_mask_testbit_listed _ _ Hbit) as (q & Hin & Hq).
    subst n. rewrite (Hset q Hin). reflexivity. }
  rewrite (Z.sub_nocarry_ldiff _ _ Hsub).
  apply Z.bits_inj'. intros n _.
  rewrite Z.land_spec, !Z.ldiff_spec.
  destruct (Z.testbit basis_state n), (Z.testbit (qubit_mask qubits) n);
    reflexivity.
Qed.

(** X5: for a list without duplicates whose qubits are all 1 in
    [basis_state], [_clear_bits] returns [basis_state AND NOT mask], which
    is then [basis_state] minus the sum of the listed powers of two. *)
Theorem clear_bits_clears_listed_when_set
    (basis_state : Z) (qubits : list nat) :
  NoDup qubits ->
  (forall q, q ∈ qubits -> Z.testbit basis_state (Z.of_nat q) = true) ->
  _clear_bits basis_state qubits = clear_bits_spec basis_state qubits /\
  _clear_bits basis_state qubits
  = basis_state - py_sum (map shl1 qubits).
Proof.
  intros Hnd Hset. split.
  - apply clear_bits_all_set; assumption.
  - apply clear_bits_no_borrow; assumption.
Qed.

Lemma clear_bits_clears_listed_when_set_witness :
  NoDup [0%nat; 2%nat] /\
  (forall q, q ∈ [0%nat; 2%nat] -> Z.testbit 7 (Z.of_nat q) = true) /\
  _clear_bits 7 [0%nat; 2%nat] = clear_bits_spec 7 [0%nat; 2%nat] /\
  _clear_bits 7 [0%nat; 2%nat] = 7 - py_sum (map shl1 [0%nat; 2%nat]).
Proof.
  assert (Hnd : NoDup [0%nat; 2%nat]).
  { apply NoDup_cons. split.
    - intros Hin. apply elem_of_cons in Hin as [Heq|Hin];
        [discriminate | inversion Hin].
    - apply NoDup_singleton. }
  assert (Hset : forall q, q ∈ [0%nat; 2%nat] ->
            Z.testbit 7 (Z.of_nat q) = true).
  { intros q Hq. apply elem_of_cons in Hq as [->|Hq]; [reflexivity|].
    apply elem_of_cons in Hq as [->|Hq]; [reflexivity|].
    inversion Hq. }
  split; [exact Hnd|]. split; [exact Hset|].
  apply (clear_bits_clears_listed_when_set 7 [0%nat; 2%nat] Hnd Hset).
Defined.

Lemma qubit_mask_testbit_of_listed (qubits : list nat) (q : nat) :
  q ∈ qubits -> Z.testbit (qubit_mask qubits) (Z.of_nat q) = true.
Proof.
  intros Hq. rewrite qubit_mask_testbit.
  apply existsb_exists. exists q. split.
  - apply list_elem_of_In. exact Hq.
  - apply Z.eqb_refl.
Qed.

(** X6: for control qubits without duplicates, the test
    [basis_state & control_mask == control_mask] of [controlled_u] holds
    exactly when every control qubit is 1 in [basis_state]. *)
Theorem control_mask_test_iff_all_set
    (basis_state : Z) (control_qubits : list nat) :
  NoDup control_qubits ->
  (Z.land basis_state (control_mask_of control_qubits)
     = control_mask_of control_qubits
   <-> forall q, q ∈ control_qubits ->
         Z.testbit basis_state (Z.of_nat q) = true).
Proof.
  intros Hnd. unfold control_mask_of. rewrite (mask_sum_NoDup _ Hnd).
  split.
  - intros Heq q Hq.
    assert (Hbit : Z.testbit
                     (Z.land basis_state (qubit_mask control_qubits))
                     (Z.of_nat q) = true)
      by (rewrite Heq; apply qubit_mask_testbit_of_listed; exact Hq).
    rewrite Z.land_spec in Hbit. apply andb_true_iff in Hbit. apply Hbit.
  - intros Hall. apply Z.bits_inj'. intros n _.
    rewrite Z.land_spec.
    destruct (Z.testbit (qubit_mask control_qubits) n) eqn:Hbit;
      [|apply andb_false_r].
    destruct (qubit_mask_testbit_listed _ _ Hbit) as (q & Hin & Hq).
    subst n. rewrite (Hall q Hin). reflexivity.
Qed.

Lemma control_mask_test_iff_all_set_witness :
  NoDup [0%nat; 2%nat] /\
  (Z.land 5 (control_mask_of [0%nat; 2%nat]) = control_mask_of [0%nat; 2%nat]
   <-> forall q, q ∈ [0%nat; 2%nat] -> Z.testbit 5 (Z.of_nat q) = true).
Proof.
  assert (Hnd : NoDup [0%nat; 2%nat]).
  { apply NoDup_cons. split.
    - intros Hin. apply elem_of_cons in Hin as [Heq|Hin];
        [discriminate | inversion Hin].
    - apply NoDup_singleton. }
  split; [exact Hnd|].
  apply (control_mask_test_iff_all_set 5 [0%nat; 2%nat] Hnd).
Defined.

(** ** Scattering *)

Section InsertFacts.

Context {A : Type} `{Amplitude A}.

Lemma np_setitem_length (arr arr' : list A) (i : Z) (v : A) :
  np_setitem arr i v = Ok arr' -> length arr' = length arr.
Proof.
  unfold np_setitem. destruct (np_index (length arr) i) as [j|e]; simpl;
    [|discriminate].
  intros Heq. inversion Heq. apply length_insert.
Qed.

Lemma insert_loop_length (out out' : list A) (e : Z) (ins : list A)
    (qs ks : list nat) :
  insert_loop out e ins qs ks = Ok out' -> length out' = length out.
Proof.
  revert out. induction ks as [|k ks IH]; intros out Hloop; simpl in Hloop.
  - inversion Hloop. reflexivity.
  - destruct (seq_getitem ins k) as [v|err]; simpl in Hloop; [|discriminate].
    destruct (np_setitem out (set_apply qs k + e) v) as [out1|err] eqn:Hset;
      simpl in Hloop; [|discriminate].
    rewrite (IH _ Hloop). eapply np_setitem_length. exact Hset.
Qed.

(** X7: whenever [_insert_sub_bit_superpos] returns, the state it returns
    has [basis_size] amplitudes, whatever the length of [insert_state] and
    whatever the qubit list. *)
Theorem insert_sub_bit_superpos_length (basis_size : nat) (state : Z)
    (insert_state : list A) (apply_qubits : list nat) (s : State A) :
  _insert_sub_bit_superpos basis_size state insert_state apply_qubits = Ok s ->
  length (amplitudes s) = basis_size.
Proof.
  unfold _insert_sub_bit_superpos.
  destruct (insert_loop _ _ _ _ _) as [raw|e] eqn:Hloop; simpl; [|discriminate].
  intros Heq. inversion Heq; subst s. simpl.
  rewrite (insert_loop_length _ _ _ _ _ _ Hloop). apply length_np_zeros.
Qed.

Lemma bits_sum_all_true (p : nat -> bool) (n : nat) :
  (forall i, (i < n)%nat -> p i = true) -> bits_sum p n = 2 ^ Z.of_nat n - 1.
Proof.
  induction n as [|n IH]; intros Hp.
  - reflexivity.
  - rewrite bits_sum_S, (Hp n) by lia.
    rewrite IH by (intros i Hi; apply Hp; lia).
    rewrite shl1_pow, Nat2Z.inj_succ, Z.pow_succ_r by lia. lia.
Qed.

(** When every listed qubit is 1 the local index is the last one. *)
Lemma extract_all_set (bs : Z) (qubits : list nat) :
  (forall q, q ∈ qubits -> Z.testbit bs (Z.of_nat q) = true) ->
  _extract_sub_basis_state bs qubits = 2 ^ Z.of_nat (length qubits) - 1.
Proof.
  intros Hset. rewrite extract_as_bits_sum.
  apply bits_sum_all_true. intros i Hi. apply Hset, nth_listed, Hi.
Qed.

Lemma shl1_nonneg (i : nat) : 0 <= shl1 i.
Proof. rewrite shl1_pow. apply Z.pow_nonneg. lia. Qed.

Lemma py_sum_filter_bounds (T : Type) (g : T -> Z) (t : T -> bool)
    (l : list T) :
  (forall x, 0 <= g x) ->
  0 <= py_sum (map g (List.filter t l)) <= py_sum (map g l).
Proof.
  intros Hg. induction l as [|x l IH]; simpl.
  - rewrite py_sum_nil. lia.
  - pose proof (Hg x). destruct (t x); simpl; rewrite ?py_sum_cons; lia.
Qed.

Lemma map_nth_range (qubits : list nat) :
  map (fun i => nth i qubits 0%nat) (range (length qubits)) = qubits.
Proof.
  apply (nth_ext _ _ 0%nat 0%nat).
  - unfold range. rewrite length_map, length_seq. reflexivity.
  - intros n Hn. unfold range in Hn. rewrite length_map, length_seq in Hn.
    apply (nth_map_range nat (fun i => nth i qubits 0%nat)). exact Hn.
Qed.

Lemma map_shl1_nth_range (qubits : list nat) :
  map (fun i => shl1 (nth i qubits 0%nat)) (range (length qubits))
  = map shl1 qubits.
Proof.
  transitivity
    (map shl1 (map (fun i => nth i qubits 0%nat) (range (length qubits)))).
  - rewrite map_map. reflexivity.
  - rewrite map_nth_range. reflexivity.
Qed.

Lemma set_apply_bounds (apply_qubits : list nat) (k : nat) :
  0 <= set_apply apply_qubits k <= py_sum (map shl1 apply_qubits).
Proof.
  unfold set_apply. rewrite <- map_shl1_nth_range.
  apply py_sum_filter_bounds. intros i. apply shl1_nonneg.
Qed.

Lemma filter_all_true (T : Type) (t : T -> bool) (l : list T) :
  (forall x, In x l -> t x = true) -> List.filter t l = l.
Proof.
  induction l as [|x l IH]; intros Ht; simpl; [reflexivity|].
  rewrite (Ht x) by (left; reflexivity).
  f_equal. apply IH. intros y Hy. apply Ht. right. exact Hy.
Qed.

Lemma pow2_pred_Z (m : nat) : Z.of_nat (pow2 m - 1) = 2 ^ Z.of_nat m - 1.
Proof.
  pose proof (pow2_pos m). rewrite Nat2Z.inj_sub by lia.
  rewrite pow2_Z. reflexivity.
Qed.

(** At the last local index every apply qubit is set. *)
Lemma set_apply_last (apply_qubits : list nat) :
  set_apply apply_qubits (pow2 (length apply_qubits) - 1)
  = py_sum (map shl1 apply_qubits).
Proof.
  unfold set_apply. rewrite filter_all_true.
  - rewrite map_shl1_nth_range. reflexivity.
  - intros i Hi. apply in_seq in Hi.
    rewrite pow2_pred_Z.
    replace (2 ^ Z.of_nat (length apply_qubits) - 1)
      with (Z.ones (Z.of_nat (length apply_qubits)))
      by (rewrite Z.ones_equiv; lia).
    rewrite Z.land_ones by lia.
    pose proof (Z.pow_gt_lin_r 2 (Z.of_nat (length apply_qubits))
                  ltac:(lia) ltac:(lia)).
    rewrite Z.mod_small by lia.
    unfold nonzero. apply negb_true_iff, Z.eqb_neq. lia.
Qed.

Lemma insert_loop_app (out : list A) (e : Z) (ins : list A)
    (qs ks1 ks2 : list nat) :
  insert_loop out e ins qs (ks1 ++ ks2)
  = (out1 <~ insert_loop out e ins qs ks1 ;;
     insert_loop out1 e ins qs ks2).
Proof.
  revert out. induction ks1 as [|k ks1 IH]; intros out; simpl.
  - reflexivity.
  - destruct (seq_getitem ins k) as [v|err]; simpl; [|reflexivity].
    destruct (np_setitem out (set_apply qs k + e) v) as [out1|err]; simpl;
      [|reflexivity].
    apply IH.
Qed.

Lemma np_setitem_in_range (arr : list A) (i : Z) (v : A) :
  0 <= i < Z.of_nat (length arr) ->
  np_setitem arr i v = Ok (<[Z.to_nat i := v]> arr).
Proof.
  intros Hi. unfold np_setitem. rewrite np_index_in_range by exact Hi.
  reflexivity.
Qed.

(** Writing zeros at valid indices of a zero vector changes nothing. *)
Lemma insert_loop_zeros (n : nat) (e : Z) (ins : list A)
    (qs ks : list nat) :
  (forall k, k ∈ ks ->
     ins !! k = Some azero /\ 0 <= set_apply qs k + e < Z.of_nat n) ->
  insert_loop (np_zeros n) e ins qs ks = Ok (np_zeros n).
Proof.
  induction ks as [|k ks IH]; intros Hks; simpl; [reflexivity|].
  destruct (Hks k) as [Hv Hidx]; [apply elem_of_cons; left; reflexivity|].
  unfold seq_getitem. rewrite Hv. simpl.
  rewrite np_setitem_in_range by (rewrite length_np_zeros; exact Hidx).
  simpl.
  rewrite list_insert_id.
  - apply IH. intros k' Hk'. apply Hks, elem_of_cons. right. exact Hk'.
  - apply lookup_replicate_2. lia.
Qed.

Lemma unit_vector_lookup_other (n k j : nat) :
  (j < n)%nat -> j <> k -> unit_vector (A:=A) n k !! j = Some azero.
Proof.
  intros Hj Hne. unfold unit_vector.
  rewrite list_lookup_insert_ne by congruence.
  apply lookup_replicate_2. exact Hj.
Qed.

Lemma unit_vector_lookup_same (n k : nat) :
  (k < n)%nat -> unit_vector (A:=A) n k !! k = Some aone.
Proof.
  intros Hk. unfold unit_vector.
  apply list_lookup_insert_eq. rewrite length_np_zeros. exact Hk.
Qed.

(** X8: the round trip of extraction and insertion holds on the basis
    states in which every listed qubit is 1: for a list without duplicates
    and [0 <= bs < basis_size], scattering the local unit vector at the
    extracted index gives the unit vector at [bs]. *)
Theorem insert_after_extract_all_set (basis_size : nat) (bs : Z)
    (qubits : list nat) :
  NoDup qubits ->
  0 <= bs < Z.of_nat basis_size ->
  (forall q, q ∈ qubits -> Z.testbit bs (Z.of_nat q) = true) ->
  _insert_sub_bit_superpos basis_size bs
    (unit_vector (pow2 (length qubits))
       (Z.to_nat (_extract_sub_basis_state bs qubits)))
    qubits
  = Ok (mkState (unit_vector basis_size (Z.to_nat bs))).
Proof.
  intros Hnd Hbs Hset.
  set (m := length qubits).
  assert (Hlast : Z.to_nat (_extract_sub_basis_state bs qubits)
                  = (pow2 m - 1)%nat).
  { rewrite (extract_all_set _ _ Hset). fold m.
    rewrite <- pow2_pred_Z. apply Nat2Z.id. }
  rewrite Hlast. unfold _insert_sub_bit_superpos.
  rewrite length_unit_vector.
  rewrite (clear_bits_no_borrow _ _ Hnd Hset).
  assert (Hlow : 0 <= _clear_bits bs qubits)
    by (unfold _clear_bits; apply Z.land_nonneg; right; lia).
  rewrite (clear_bits_no_borrow _ _ Hnd Hset) in Hlow.
  pose proof (pow2_pos m) as Hpos.
  assert (Hrange : range (pow2 m) = range (pow2 m - 1) ++ [(pow2 m - 1)%nat]).
  { unfold range. replace (pow2 m) with (S (pow2 m - 1)) at 1 by lia.
    rewrite seq_S. reflexivity. }
  rewrite Hrange, insert_loop_app.
  rewrite (insert_loop_zeros basis_size).
  - simpl. unfold seq_getitem.
    rewrite unit_vector_lookup_same by lia. simpl.
    unfold m. rewrite set_apply_last.
    replace (py_sum (map shl1 qubits) + (bs - py_sum (map shl1 qubits)))
      with bs by lia.
    rewrite np_setitem_in_range by (rewrite length_np_zeros; exact Hbs).
    reflexivity.
  - intros k Hk. apply elem_of_seq in Hk. split.
    + apply unit_vector_lookup_other; lia.
    + pose proof (set_apply_bounds qubits k). lia.
Qed.

End InsertFacts.

Lemma insert_sub_bit_superpos_length_witness :
  _insert_sub_bit_superpos (A:=Z) 4 3 [5; 7] [0%nat]
  = Ok (mkState [0; 0; 5; 7]) /\
  length (amplitudes (mkState (A:=Z) [0; 0; 5; 7])) = 4%nat.
Proof.
  assert (Hins : _insert_sub_bit_superpos (A:=Z) 4 3 [5; 7] [0%nat]
                 = Ok (mkState [0; 0; 5; 7])) by reflexivity.
  split; [exact Hins|].
  apply (insert_sub_bit_superpos_length 4 3 [5; 7] [0%nat] _ Hins).
Defined.

Lemma insert_after_extract_all_set_witness :
  NoDup [1%nat; 0%nat; 2%nat] /\
  0 <= 15 < Z.of_nat 16 /\
  (forall q, q ∈ [1%nat; 0%nat; 2%nat] -> Z.testbit 15 (Z.of_nat q) = true) /\
  _insert_sub_bit_superpos (A:=Z) 16 15
    (unit_vector (pow2 (length [1%nat; 0%nat; 2%nat]))
       (Z.to_nat (_extract_sub_basis_state 15 [1%nat; 0%nat; 2%nat])))
    [1%nat; 0%nat; 2%nat]
  = Ok (mkState (unit_vector 16 (Z.to_nat 15))).
Proof.
  assert (Hnd : NoDup [1%nat; 0%nat; 2%nat]).
  { apply NoDup_cons. split.
    - intros Hin. apply elem_of_cons in Hin as [Heq|Hin]; [discriminate|].
      apply elem_of_cons in Hin as [Heq|Hin]; [discriminate | inversion Hin].
    - apply NoDup_cons. split; [|apply NoDup_singleton].
      intros Hin. apply elem_of_cons in Hin as [Heq|Hin];
        [discriminate | inversion Hin]. }
  assert (Hbs : 0 <= 15 < Z.of_nat 16) by (simpl; lia).
  assert (Hset : forall q, q ∈ [1%nat; 0%nat; 2%nat] ->
            Z.testbit 15 (Z.of_nat q) = true).
  { intros q Hq. apply elem_of_cons in Hq as [->|Hq]; [reflexivity|].
    apply elem_of_cons in Hq as [->|Hq]; [reflexivity|].
    apply elem_of_cons in Hq as [->|Hq]; [reflexivity|].
    inversion Hq. }
  split; [exact Hnd|]. split; [exact Hbs|]. split; [exact Hset|].
  apply (insert_after_extract_all_set 16 15 [1%nat; 0%nat; 2%nat]
           Hnd Hbs Hset).
Defined.

(** ** Materialisation and composition *)

Section MaterialiseFacts.

Context {A : Type} `{Amplitude A}.

(** X9: the two variants of [from_eval_bs] agree: a gate materialised by
    [MatrixGate.from_eval_bs] returns, at every basis state where the
    evaluator gave a state of [basis_size] amplitudes, what the
    [FunctionalGate] of the same evaluator returns. *)
Theorem from_eval_bs_variants_agree (qc : nat) (f : Z -> result (State A))
    (g : Gate A) (bs : Z) (s : State A) :
  from_eval_bs MatrixGateClass qc f = Ok g ->
  0 <= bs < 2 ^ Z.of_nat qc ->
  f bs = Ok s -> length (amplitudes s) = pow2 qc ->
  from_eval_bs FunctionalGateClass qc f = Ok (FunctionalGate qc f) /\
  eval_bs g bs = eval_bs (FunctionalGate qc f) bs.
Proof.
  intros Hg Hbs Hf Hlen. split; [reflexivity|].
  destruct s as [v]. simpl in Hlen. simpl. rewrite Hf.
  eapply matrix_from_eval_bs_column; eassumption.
Qed.

(** X10: a gate returned by [MatrixGate.from_eval_bs] is a matrix gate of
    the given qubit count whose matrix is [basis_size] by [basis_size]. *)
Theorem matrix_from_eval_bs_shape (qc : nat) (f : Z -> result (State A))
    (g : Gate A) :
  from_eval_bs MatrixGateClass qc f = Ok g ->
  exists m, g = MatrixGate qc m /\ square (pow2 qc) m /\
            ncols m = basis_size g.
Proof.
  intros Hg. simpl in Hg.
  destruct (fill_columns _ f (range (pow2 qc))) as [mat'|e] eqn:Hfill;
    simpl in Hg; [|discriminate].
  inversion Hg; subst g; clear Hg.
  destruct (fill_columns_columns (pow2 qc) f (range (pow2 qc)) _ mat'
              (square_zeros _) (NoDup_seq _ _)) as (Hsq & _ & _);
    [|exact Hfill|].
  { apply Forall_forall. intros k Hk. apply elem_of_seq in Hk. lia. }
  exists mat'. repeat split; try apply Hsq.
  apply square_ncols; [apply pow2_pos | exact Hsq].
Qed.

Lemma fill_columns_raises (f : Z -> result (State A)) (bss : list nat)
    (mat : list (list A)) (k : nat) (e : pyerr) :
  k ∈ bss -> f (Z.of_nat k) = Raise e ->
  exists e', fill_columns mat f bss = Raise e'.
Proof.
  revert mat. induction bss as [|b bss IH]; intros mat Hk Hf.
  - inversion Hk.
  - simpl. destruct (f (Z.of_nat b)) as [s|e0] eqn:Hfb; simpl.
    + destruct (set_column mat b (amplitudes s)) as [mat1|e1]; simpl.
      * apply IH; [|exact Hf].
        apply elem_of_cons in Hk as [->|Hk]; [congruence | exact Hk].
      * eexists. reflexivity.
    + eexists. reflexivity.
Qed.

(** X11: [MatrixGate.from_eval_bs] returns a gate only if the evaluator
    returns at every basis state of the register: one basis state at which
    it raises makes the construction raise. *)
Theorem matrix_from_eval_bs_needs_total (qc : nat)
    (f : Z -> result (State A)) (bs : Z) (e : pyerr) :
  0 <= bs < 2 ^ Z.of_nat qc -> f bs = Raise e ->
  exists e', from_eval_bs MatrixGateClass qc f = Raise e'.
Proof.
  intros Hbs Hf. simpl.
  destruct (fill_columns_raises f (range (pow2 qc))
              (replicate (pow2 qc) (np_zeros (pow2 qc))) (Z.to_nat bs) e)
    as [e' He'].
  - apply elem_of_seq. rewrite <- pow2_Z in Hbs. lia.
  - rewrite Z2Nat.id by lia. exact Hf.
  - rewrite He'. eexists. reflexivity.
Qed.

(** X12: [g1 * g2] is a matrix gate exactly when both operands are, it has
    the qubit count of the operands when they share one, and it is always
    built, whatever the two qubit counts, unless both operands are matrix
    gates: no operand is checked against the other. *)
Theorem gate_mul_result_class (g1 g2 : Gate A) :
  (forall g, gate_mul g1 g2 = Ok g ->
     is_matrix_gate g = is_matrix_gate g1 && is_matrix_gate g2 /\
     (qubit_count g1 = qubit_count g2 -> qubit_count g = qubit_count g1)) /\
  (is_matrix_gate g1 && is_matrix_gate g2 = false ->
   exists g, gate_mul g1 g2 = Ok g).
Proof.
  split.
  - intros g Hg.
    destruct g1 as [qc1 f1|qc1 m1], g2 as [qc2 f2|qc2 m2]; simpl in Hg.
    + inversion Hg; subst g. split; [reflexivity | intros _; reflexivity].
    + inversion Hg; subst g. split; [reflexivity | intros _; reflexivity].
    + inversion Hg; subst g. split; [reflexivity|]. simpl. congruence.
    + destruct (np_dot_mm m1 m2) as [m|e]; simpl in Hg; [|discriminate].
      inversion Hg; subst g. split; [reflexivity | intros _; reflexivity].
  - intros Hcls.
    destruct g1 as [qc1 f1|qc1 m1], g2 as [qc2 f2|qc2 m2];
      simpl in *; try discriminate; eexists; reflexivity.
Qed.

(** X13: for two matrix gates on the same qubit count whose matrices are
    [basis_size] by [basis_size], the product is built and its [eval_bs]
    at a basis state [k] is [g1] applied to [g2.eval_bs(k)], both being
    defined. *)
Theorem mul_matrix_gates_applies_right_first (qc : nat)
    (m1 m2 : list (list A)) (k : Z) :
  square (pow2 qc) m1 -> square (pow2 qc) m2 ->
  0 <= k < 2 ^ Z.of_nat qc ->
  exists g v,
    gate_mul (MatrixGate qc m1) (MatrixGate qc m2) = Ok g /\
    eval_bs g k = Ok (mkState v) /\
    (s <~ eval_bs (MatrixGate qc m2) k ;;
     gate_call (MatrixGate qc m1) (PyState s)) = Ok (mkState v).
Proof.
  intros Hsq1 Hsq2 Hk.
  pose proof (pow2_pos qc) as Hpos.
  pose proof (square_ncols _ _ Hpos Hsq1) as Hc1.
  pose proof (square_ncols _ _ Hpos Hsq2) as Hc2.
  assert (Hshape : ncols m1 = length m2)
    by (destruct Hsq2 as [Hl2 _]; lia).
  assert (Hne : m1 <> [])
    by (destruct Hsq1 as [Hl1 _]; intros ->; simpl in Hl1; lia).
  assert (Hk' : 0 <= k < Z.of_nat (ncols m2))
    by (rewrite Hc2, pow2_Z; exact Hk).
  destruct (mul_matrix_matrix qc qc m1 m2 k Hshape Hne Hk') as (g & Hg & Heval).
  exists g.
  assert (Hrhs : exists v,
            (s <~ eval_bs (MatrixGate qc m2) k ;;
             gate_call (MatrixGate qc m1) (PyState s)) = Ok (mkState v)).
  { simpl. rewrite np_index_in_range by exact Hk'. simpl.
    unfold np_dot_mv. rewrite length_column.
    replace (ncols m1 =? length m2)%nat with true
      by (symmetry; apply Nat.eqb_eq; exact Hshape).
    simpl. eexists. reflexivity. }
  destruct Hrhs as [v Hv]. exists v.
  split; [exact Hg|]. split; [|exact Hv].
  rewrite Heval. exact Hv.
Qed.

(** X14: with at least one qubit listed, [multi_gate] never produces a
    state, for any gate: on [MatrixGate] the construction raises the error
    of [gate(...)] on an int; on [Gate] and [FunctionalGate] the gate is
    built and its [eval_bs] raises that error at every basis state. *)
Theorem multi_gate_nonempty_raises (cls : gate_class) (qc : nat)
    (gate : Gate A) (q : nat) (qs : list nat) :
  match cls with
  | MatrixGateClass =>
      multi_gate cls qc gate (q :: qs) = Raise (call_on_int_error gate)
  | _ =>
      exists g, multi_gate cls qc gate (q :: qs) = Ok g /\
                forall bs, eval_bs g bs = Raise (call_on_int_error gate)
  end.
Proof.
  destruct cls.
  - eexists. split; [reflexivity|]. intros bs.
    apply multi_gate_eval_bs_raises.
  - eexists. split; [reflexivity|]. intros bs.
    apply multi_gate_eval_bs_raises.
  - unfold multi_gate. simpl.
    destruct (range_pow2_cons qc) as [ks ->]. simpl.
    rewrite multi_gate_eval_bs_raises. reflexivity.
Qed.

End MaterialiseFacts.

(** ** Applying a gate to a state *)

Section CallFacts.

Context {A : Type} `{Amplitude A}.

Lemma superpose_app (f : Z -> result (State A)) (st : pyarg A)
    (ks1 ks2 : list nat) (acc : option (State A)) :
  superpose f st (ks1 ++ ks2) acc
  = (acc1 <~ superpose f st ks1 acc ;; superpose f st ks2 acc1).
Proof.
  revert acc. induction ks1 as [|k ks1 IH]; intros acc; simpl.
  - reflexivity.
  - destruct (arg_getitem st k) as [a|e]; simpl; [|reflexivity].
    destruct (f (Z.of_nat k)) as [s|e]; simpl; [|reflexivity].
    destruct (match acc with
              | Some t => state_add t (state_scale a s)
              | None => Ok (state_scale a s)
              end) as [acc'|e]; simpl; [|reflexivity].
    apply IH.
Qed.

(** The sum reads the state at the indices of the range only. *)
Lemma superpose_agree (f : Z -> result (State A)) (v w : list A)
    (ks : list nat) (acc : option (State A)) :
  (forall k, k ∈ ks -> v !! k = w !! k) ->
  superpose f (PyState (mkState v)) ks acc
  = superpose f (PyState (mkState w)) ks acc.
Proof.
  revert acc. induction ks as [|k ks IH]; intros acc Hagree; simpl.
  - reflexivity.
  - unfold state_getitem, seq_getitem. simpl.
    rewrite (Hagree k) by (apply elem_of_cons; left; reflexivity).
    destruct (w !! k) as [a|]; simpl; [|reflexivity].
    destruct (f (Z.of_nat k)) as [s|e]; simpl; [|reflexivity].
    destruct (match acc with
              | Some t => state_add t (state_scale a s)
              | None => Ok (state_scale a s)
              end) as [acc'|e]; simpl; [|reflexivity].
    apply IH. intros k' Hk'. apply Hagree, elem_of_cons. right. exact Hk'.
Qed.

(** X15: [FunctionalGate.__call__] reads the first [basis_size] amplitudes
    of the state only: amplitudes after them are ignored without any
    error. *)
Theorem functional_call_ignores_extra_amplitudes (qc : nat)
    (f : Z -> result (State A)) (v extra : list A) :
  (pow2 qc <= length v)%nat ->
  gate_call (FunctionalGate qc f) (PyState (mkState (v ++ extra)))
  = gate_call (FunctionalGate qc f) (PyState (mkState v)).
Proof.
  intros Hlen. simpl.
  rewrite (superpose_agree f (v ++ extra) v); [reflexivity|].
  intros k Hk. apply elem_of_seq in Hk.
  apply lookup_app_l. lia.
Qed.

Section WithLaws.

Hypothesis laws : amplitude_laws A.

Lemma scale_by_one (s : State A) : state_scale aone s = s.
Proof.
  destruct laws as (H1 & _). destruct s as [v]. unfold state_scale. simpl.
  f_equal. induction v as [|x v IH]; simpl; [reflexivity|].
  rewrite H1, IH. reflexivity.
Qed.

Lemma scale_by_zero (s : State A) :
  state_scale azero s = mkState (np_zeros (length (amplitudes s))).
Proof.
  destruct laws as (_ & _ & H0 & _). destruct s as [v].
  unfold state_scale. simpl. f_equal.
  induction v as [|x v IH]; simpl; [reflexivity|].
  rewrite H0. unfold np_zeros in IH. rewrite IH. reflexivity.
Qed.

Lemma add_zeros_r (t : State A) :
  state_add t (mkState (np_zeros (length (amplitudes t)))) = Ok t.
Proof.
  destruct laws as (_ & _ & _ & _ & _ & Hr). destruct t as [v].
  unfold state_add. simpl. rewrite length_np_zeros, Nat.eqb_refl.
  do 2 f_equal. induction v as [|x v IH]; simpl; [reflexivity|].
  rewrite Hr. unfold np_zeros in IH. rewrite IH. reflexivity.
Qed.

Lemma add_zeros_l (t : State A) :
  state_add (mkState (np_zeros (length (amplitudes t)))) t = Ok t.
Proof.
  destruct laws as (_ & _ & _ & _ & Hl & _). destruct t as [v].
  unfold state_add. simpl. rewrite length_np_zeros, Nat.eqb_refl.
  do 2 f_equal. induction v as [|x v IH]; simpl; [reflexivity|].
  rewrite Hl. unfold np_zeros in IH. rewrite IH. reflexivity.
Qed.

(** Terms whose amplitude is 0 leave a running sum of full length as it
    is. *)
Lemma superpose_zero_terms (n k : nat) (f : Z -> result (State A))
    (ks : list nat) (t : State A) :
  length (amplitudes t) = n ->
  (forall j, j ∈ ks ->
     (j < n)%nat /\ j <> k /\
     exists s, f (Z.of_nat j) = Ok s /\ length (amplitudes s) = n) ->
  superpose f (PyState (mkState (unit_vector n k))) ks (Some t)
  = Ok (Some t).
Proof.
  intros Ht. induction ks as [|j ks IH]; intros Hks; simpl; [reflexivity|].
  destruct (Hks j) as (Hj & Hne & s & Hs & Hlen);
    [apply elem_of_cons; left; reflexivity|].
  unfold state_getitem, seq_getitem. simpl.
  rewrite unit_vector_lookup_other by assumption. simpl.
  rewrite Hs. simpl.
  pose proof (add_zeros_r t) as Hadd. rewrite Ht in Hadd.
  rewrite scale_by_zero, Hlen, Hadd. simpl.
  apply IH. intros j' Hj'. apply Hks, elem_of_cons. right. exact Hj'.
Qed.

(** Before the index of the unit amplitude the running sum is the int 0 or
    the zero state. *)
Lemma superpose_zero_prefix (n k : nat) (f : Z -> result (State A))
    (ks : list nat) :
  (forall j, j ∈ ks ->
     (j < n)%nat /\ j <> k /\
     exists s, f (Z.of_nat j) = Ok s /\ length (amplitudes s) = n) ->
  superpose f (PyState (mkState (unit_vector n k))) ks None
  = Ok (match ks with
        | [] => None
        | _ :: _ => Some (mkState (np_zeros n))
        end).
Proof.
  destruct ks as [|j ks]; intros Hks; simpl; [reflexivity|].
  destruct (Hks j) as (Hj & Hne & s & Hs & Hlen);
    [apply elem_of_cons; left; reflexivity|].
  unfold state_getitem, seq_getitem. simpl.
  rewrite unit_vector_lookup_other by assumption. simpl.
  rewrite Hs. simpl. rewrite scale_by_zero, Hlen.
  apply superpose_zero_terms.
  - simpl. apply length_np_zeros.
  - intros j' Hj'. apply Hks, elem_of_cons. right. exact Hj'.
Qed.

(** X16: on the unit state at basis state [k], [FunctionalGate.__call__]
    returns what [eval_bs(k)] returns, provided the wrapped function
    returns a state of [basis_size] amplitudes at every basis state and the
    amplitudes obey the laws of 0 and 1. *)
Theorem functional_call_on_basis_state (qc : nat)
    (f : Z -> result (State A)) (k : nat) :
  (k < pow2 qc)%nat ->
  (forall j, (j < pow2 qc)%nat ->
     exists s, f (Z.of_nat j) = Ok s /\ length (amplitudes s) = pow2 qc) ->
  gate_call (FunctionalGate qc f)
    (PyState (mkState (unit_vector (pow2 qc) k)))
  = eval_bs (FunctionalGate qc f) (Z.of_nat k).
Proof.
  intros Hk Hf. simpl.
  set (n := pow2 qc) in *.
  assert (Hrange : range n = seq 0 k ++ [k] ++ seq (S k) (n - S k)).
  { unfold range. replace n with (k + (1 + (n - S k)))%nat at 1 by lia.
    rewrite seq_app. simpl. reflexivity. }
  assert (Hother : forall l : list nat,
            (forall j, j ∈ l -> (j < n)%nat /\ j <> k) ->
            forall j, j ∈ l ->
              (j < n)%nat /\ j <> k /\
              exists s, f (Z.of_nat j) = Ok s /\ length (amplitudes s) = n).
  { intros l Hl j Hj. destruct (Hl j Hj) as [Hjn Hjk].
    repeat split; try assumption. apply Hf. exact Hjn. }
  destruct (Hf k Hk) as (sk & Hsk & Hlen).
  rewrite Hrange, superpose_app.
  rewrite (superpose_zero_prefix n k f (seq 0 k)).
  2:{ apply Hother. intros j Hj. apply elem_of_seq in Hj. lia. }
  assert (Hsuffix : superpose f (PyState (mkState (unit_vector n k)))
                      (seq (S k) (n - S k)) (Some sk) = Ok (Some sk)).
  { apply superpose_zero_terms; [exact Hlen|].
    apply Hother. intros j Hj. apply elem_of_seq in Hj. lia. }
  pose proof (add_zeros_l sk) as Hadd. rewrite Hlen in Hadd.
  change ([k] ++ seq (S k) (n - S k)) with (k :: seq (S k) (n - S k)).
  destruct (seq 0 k) as [|j0 l0]; cbn [rbind superpose arg_getitem];
    unfold state_getitem, seq_getitem; cbn [amplitudes];
    rewrite unit_vector_lookup_same by exact Hk;
    cbn [rbind]; rewrite Hsk; cbn [rbind]; rewrite scale_by_one.
  - cbn [rbind]. rewrite Hsuffix. reflexivity.
  - rewrite Hadd. cbn [rbind]. rewrite Hsuffix. reflexivity.
Qed.

Lemma row_dot_unit (r : list A) (k : nat) (acc : A) :
  (k < length r)%nat ->
  fold_left aadd (zip_with amul r (unit_vector (length r) k)) acc
  = aadd acc (nth k r azero).
Proof.
  destruct laws as (_ & H1 & _ & H0 & _ & Hr).
  assert (Hzeros : forall (l : list A) (a : A),
            fold_left aadd (zip_with amul l (np_zeros (length l))) a = a).
  { induction l as [|x l IH]; intros a; simpl; [reflexivity|].
    rewrite H0, Hr. apply IH. }
  revert k acc. induction r as [|x r IH]; intros k acc Hk; simpl in Hk;
    [lia|].
  destruct k as [|k]; simpl.
  - rewrite H1. apply Hzeros.
  - rewrite H0, Hr. apply IH. lia.
Qed.

(** X17: on the unit state at basis state [k], [MatrixGate.__call__] on a
    [basis_size] by [basis_size] matrix returns the amplitudes of column
    [k], which is what [eval_bs(k)] returns, provided the amplitudes obey
    the laws of 0 and 1. *)
Theorem matrix_call_on_basis_state (qc : nat) (m : list (list A)) (k : nat) :
  square (pow2 qc) m -> (k < pow2 qc)%nat ->
  gate_call (MatrixGate qc m) (PyState (mkState (unit_vector (pow2 qc) k)))
  = eval_bs (MatrixGate qc m) (Z.of_nat k).
Proof.
  intros Hsq Hk.
  pose proof (square_ncols _ _ (pow2_pos qc) Hsq) as Hcols.
  simpl. unfold np_dot_mv.
  rewrite Hcols, length_unit_vector, Nat.eqb_refl. simpl.
  rewrite np_index_in_range by lia. simpl. rewrite Nat2Z.id.
  do 2 f_equal. unfold column.
  destruct Hsq as [_ Hrows].
  apply map_ext_in. intros r Hr.
  rewrite Forall_forall in Hrows.
  assert (Hlen : length r = pow2 qc)
    by (apply Hrows, list_elem_of_In; exact Hr).
  unfold row_dot. rewrite <- Hlen.
  rewrite row_dot_unit by lia.
  destruct laws as (_ & _ & _ & _ & Hl & _). apply Hl.
Qed.

End WithLaws.

End CallFacts.

(** ** The scatter for at most two qubits *)

(** X18: for at most two apply qubits the test [(i + 1) & k] of
    [_insert_sub_bit_superpos] reads bit [i] of [k], so the qubits it sets
    are those the comments describe. *)
Theorem set_apply_by_bit_up_to_two (apply_qubits : list nat) (k : nat) :
  (length apply_qubits <= 2)%nat ->
  set_apply apply_qubits k = set_apply_by_bit apply_qubits k.
Proof.
  intros Hlen. unfold set_apply, set_apply_by_bit. do 2 f_equal.
  apply List.filter_ext_in. intros i Hi. apply in_seq in Hi.
  unfold _is_set. rewrite nonzero_shl1_land.
  assert (Hi' : i = 0%nat \/ i = 1%nat) by lia.
  destruct Hi' as [->| ->].
  - change (Z.of_nat (0 + 1)) with (shl1 0).
    rewrite Z.land_comm. apply nonzero_land_shl1.
  - change (Z.of_nat (1 + 1)) with (shl1 1).
    rewrite Z.land_comm. apply nonzero_land_shl1.
Qed.

(** ** The branch of controlled_u that applies u *)

Section ControlledFacts.

Context {A : Type} `{Amplitude A}.

(** X19: for control qubits without duplicates that are all 1 in
    [basis_state] (in particular with no control qubit at all), the closure
    of [controlled_u] evaluates [u] at the extracted local index and
    scatters the result; any error of [u.eval_bs] is the error of the
    closure. *)
Theorem controlled_u_active_branch (basis_size : nat) (u : Gate A)
    (apply_qubits control_qubits : list nat) (basis_state : Z) :
  NoDup control_qubits ->
  (forall q, q ∈ control_qubits ->
     Z.testbit basis_state (Z.of_nat q) = true) ->
  controlled_u_eval_bs basis_size (control_mask_of control_qubits) u
    apply_qubits basis_state
  = (u_out_state <~ eval_bs u
                      (_extract_sub_basis_state basis_state apply_qubits) ;;
     _insert_sub_bit_superpos basis_size basis_state
       (amplitudes u_out_state) apply_qubits).
Proof.
  intros Hnd Hall. unfold controlled_u_eval_bs.
  assert (Htest : Z.land basis_state (control_mask_of control_qubits)
                  = control_mask_of control_qubits).
  { unfold control_mask_of. rewrite (mask_sum_NoDup _ Hnd).
    apply Z.bits_inj'. intros n _. rewrite Z.land_spec.
    destruct (Z.testbit (qubit_mask control_qubits) n) eqn:Hbit;
      [|apply andb_false_r].
    destruct (qubit_mask_testbit_listed _ _ Hbit) as (q & Hin & Hq).
    subst n. rewrite (Hall q Hin). reflexivity. }
  rewrite Htest, Z.eqb_refl. reflexivity.
Qed.

End ControlledFacts.

(** ** Instances of the further properties on integer amplitudes *)

Section FurtherWitnesses.

Local Open Scope Z_scope.

Lemma from_eval_bs_variants_agree_witness :
  from_eval_bs MatrixGateClass 1 (eval_bs hadamard_unnormalised)
  = Ok hadamard_unnormalised /\
  0 <= 1 < 2 ^ Z.of_nat 1 /\
  eval_bs hadamard_unnormalised 1 = Ok (mkState [1; -1]) /\
  length (amplitudes (mkState (A:=Z) [1; -1])) = pow2 1 /\
  from_eval_bs FunctionalGateClass 1 (eval_bs hadamard_unnormalised)
  = Ok (FunctionalGate 1 (eval_bs hadamard_unnormalised)) /\
  eval_bs hadamard_unnormalised 1
  = eval_bs (FunctionalGate 1 (eval_bs hadamard_unnormalised)) 1.
Proof.
  assert (Hg : from_eval_bs MatrixGateClass 1 (eval_bs hadamard_unnormalised)
               = Ok hadamard_unnormalised) by reflexivity.
  assert (Hbs : 0 <= 1 < 2 ^ Z.of_nat 1)
    by (change (2 ^ Z.of_nat 1) with 2; lia).
  assert (Hf : eval_bs hadamard_unnormalised 1 = Ok (mkState [1; -1]))
    by reflexivity.
  assert (Hlen : length (amplitudes (mkState (A:=Z) [1; -1])) = pow2 1)
    by reflexivity.
  split; [exact Hg|]. split; [exact Hbs|]. split; [exact Hf|].
  split; [exact Hlen|].
  apply (from_eval_bs_variants_agree 1 (eval_bs hadamard_unnormalised)
           hadamard_unnormalised 1 (mkState [1; -1]) Hg Hbs Hf Hlen).
Defined.

Lemma matrix_from_eval_bs_shape_witness :
  from_eval_bs MatrixGateClass 1 (eval_bs hadamard_unnormalised)
  = Ok hadamard_unnormalised /\
  exists m, hadamard_unnormalised = MatrixGate 1 m /\ square (pow2 1) m /\
            ncols m = basis_size hadamard_unnormalised.
Proof.
  assert (Hg : from_eval_bs MatrixGateClass 1 (eval_bs hadamard_unnormalised)
               = Ok hadamard_unnormalised) by reflexivity.
  split; [exact Hg|].
  apply (matrix_from_eval_bs_shape 1 (eval_bs hadamard_unnormalised)
           hadamard_unnormalised Hg).
Defined.

Lemma matrix_from_eval_bs_needs_total_witness :
  0 <= 0 < 2 ^ Z.of_nat 1 /\
  eval_bs raising_gate 0 = Raise ValueError /\
  exists e', from_eval_bs MatrixGateClass 1 (eval_bs raising_gate) = Raise e'.
Proof.
  assert (Hbs : 0 <= 0 < 2 ^ Z.of_nat 1)
    by (change (2 ^ Z.of_nat 1) with 2; lia).
  assert (Hf : eval_bs raising_gate 0 = Raise ValueError) by reflexivity.
  split; [exact Hbs|]. split; [exact Hf|].
  apply (matrix_from_eval_bs_needs_total 1 (eval_bs raising_gate) 0
           ValueError Hbs Hf).
Defined.

Lemma mul_matrix_gates_applies_right_first_witness :
  square (pow2 1) [[1; 1]; [0; 1]] /\
  square (pow2 1) [[1; 0]; [1; 1]] /\
  0 <= 0 < 2 ^ Z.of_nat 1 /\
  exists g v,
    gate_mul (MatrixGate 1 [[1; 1]; [0; 1]]) (MatrixGate 1 [[1; 0]; [1; 1]])
    = Ok g /\
    eval_bs g 0 = Ok (mkState v) /\
    (s <~ eval_bs (MatrixGate 1 [[1; 0]; [1; 1]]) 0 ;;
     gate_call (MatrixGate 1 [[1; 1]; [0; 1]]) (PyState s))
    = Ok (mkState v).
Proof.
  assert (Hsq1 : square (A:=Z) (pow2 1) [[1; 1]; [0; 1]])
    by (split; [reflexivity | repeat constructor]).
  assert (Hsq2 : square (A:=Z) (pow2 1) [[1; 0]; [1; 1]])
    by (split; [reflexivity | repeat constructor]).
  assert (Hk : 0 <= 0 < 2 ^ Z.of_nat 1)
    by (change (2 ^ Z.of_nat 1) with 2; lia).
  split; [exact Hsq1|]. split; [exact Hsq2|]. split; [exact Hk|].
  apply (mul_matrix_gates_applies_right_first 1 _ _ 0 Hsq1 Hsq2 Hk).
Defined.

Lemma functional_call_ignores_extra_amplitudes_witness :
  (pow2 1 <= length [1%Z; 0%Z])%nat /\
  gate_call mul_example_g2 (PyState (mkState ([1; 0] ++ [9])))
  = gate_call mul_example_g2 (PyState (mkState [1; 0])).
Proof.
  assert (Hlen : (pow2 1 <= length [1%Z; 0%Z])%nat)
    by (unfold pow2; simpl; lia).
  split; [exact Hlen|].
  apply (functional_call_ignores_extra_amplitudes 1 _ [1; 0] [9] Hlen).
Defined.

Lemma functional_call_on_basis_state_witness :
  amplitude_laws Z /\
  (1 < pow2 1)%nat /\
  (forall j, (j < pow2 1)%nat ->
     exists s, eval_bs (MatrixGate 1 [[1; 0]; [1; 1]]) (Z.of_nat j) = Ok s /\
               length (amplitudes s) = pow2 1) /\
  gate_call mul_example_g2 (PyState (mkState (unit_vector (pow2 1) 1)))
  = eval_bs mul_example_g2 (Z.of_nat 1).
Proof.
  assert (Hlaws : amplitude_laws Z)
    by (repeat split; intros x; simpl; lia).
  assert (Hk : (1 < pow2 1)%nat)
    by (unfold pow2; simpl; lia).
  assert (Hf : forall j, (j < pow2 1)%nat ->
            exists s,
              eval_bs (MatrixGate 1 [[1; 0]; [1; 1]]) (Z.of_nat j) = Ok s /\
              length (amplitudes s) = pow2 1).
  { intros j Hj. change (pow2 1) with 2%nat in Hj.
    destruct j as [|[|j]]; [| |lia]; eexists; split; reflexivity. }
  split; [exact Hlaws|]. split; [exact Hk|]. split; [exact Hf|].
  apply (functional_call_on_basis_state Hlaws 1 _ 1 Hk Hf).
Defined.

Lemma matrix_call_on_basis_state_witness :
  amplitude_laws Z /\
  square (pow2 1) [[1; 1]; [0; 1]] /\
  (1 < pow2 1)%nat /\
  gate_call mul_example_g1 (PyState (mkState (unit_vector (pow2 1) 1)))
  = eval_bs mul_example_g1 (Z.of_nat 1).
Proof.
  assert (Hlaws : amplitude_laws Z)
    by (repeat split; intros x; simpl; lia).
  assert (Hsq : square (A:=Z) (pow2 1) [[1; 1]; [0; 1]])
    by (split; [reflexivity | repeat constructor]).
  assert (Hk : (1 < pow2 1)%nat)
    by (unfold pow2; simpl; lia).
  split; [exact Hlaws|]. split; [exact Hsq|]. split; [exact Hk|].
  apply (matrix_call_on_basis_state Hlaws 1 _ 1 Hsq Hk).
Defined.

Lemma set_apply_by_bit_up_to_two_witness :
  (length [3%nat; 1%nat] <= 2)%nat /\
  set_apply [3%nat; 1%nat] 2 = set_apply_by_bit [3%nat; 1%nat] 2.
Proof.
  assert (Hlen : (length [3%nat; 1%nat] <= 2)%nat)
    by (unfold pow2; simpl; lia).
  split; [exact Hlen|].
  apply (set_apply_by_bit_up_to_two [3%nat; 1%nat] 2 Hlen).
Defined.

(** With three qubits the two scatters differ. *)
Example set_apply_by_bit_three_qubits :
  set_apply [0%nat; 1%nat; 2%nat] 4 = 0 /\
  set_apply_by_bit [0%nat; 1%nat; 2%nat] 4 = 4.
Proof. split; reflexivity. Qed.

Lemma controlled_u_active_branch_witness :
  NoDup [0%nat] /\
  (forall q, q ∈ [0%nat] -> Z.testbit 3 (Z.of_nat q) = true) /\
  controlled_u_eval_bs 4 (control_mask_of [0%nat]) hadamard_unnormalised
    [1%nat] 3
  = (u_out_state <~ eval_bs hadamard_unnormalised
                      (_extract_sub_basis_state 3 [1%nat]) ;;
     _insert_sub_bit_superpos 4 3 (amplitudes u_out_state) [1%nat]).
Proof.
  assert (Hnd : NoDup [0%nat]) by apply NoDup_singleton.
  assert (Hall : forall q, q ∈ [0%nat] -> Z.testbit 3 (Z.of_nat q) = true).
  { intros q Hq. apply elem_of_cons in Hq as [->|Hq]; [reflexivity|].
    inversion Hq. }
  split; [exact Hnd|]. split; [exact Hall|].
  apply (controlled_u_active_branch 4 hadamard_unnormalised [1%nat] [0%nat] 3
           Hnd Hall).
Defined.

End FurtherWitnesses.
